(** * Shallow embedding of [main.py] of reso-user-join-leave-notifications

    A Python [str] is a sequence of Unicode code points; it is modelled as
    [pystr], a list of code points ([N]).  Python's [str.lower] performs full
    Unicode case mapping (length-changing, context-dependent for final sigma);
    it is kept abstract as a function [pystr -> pystr] wherever a statement
    holds for any case mapping, and instantiated with [ascii_lower], which
    agrees with [str.lower] on ASCII strings, at concrete inputs. *)

From Stdlib Require Import String Ascii List NArith ZArith Arith Bool Lia.
Import ListNotations.
Open Scope N_scope.

(* ------------------------------------------------------------------ *)
(** ** Python strings *)

Definition pystr := list N.

(** A Rocq (ASCII) string literal as a Python string. *)
Definition u (s : string) : pystr := map N_of_ascii (list_ascii_of_string s).

Fixpoint pystr_eqb (a b : pystr) : bool :=
  match a, b with
  | [], [] => true
  | x :: a', y :: b' => (x =? y) && pystr_eqb a' b'
  | _, _ => false
  end.

(** [str.isspace] on one code point (CPython's [Py_UNICODE_ISSPACE]). *)
Definition py_isspace (c : N) : bool :=
  ((9 <=? c) && (c <=? 13)) || ((28 <=? c) && (c <=? 32)) ||
  (c =? 133) || (c =? 160) || (c =? 5760) ||
  ((8192 <=? c) && (c <=? 8202)) || (c =? 8232) || (c =? 8233) ||
  (c =? 8239) || (c =? 8287) || (c =? 12288).

Fixpoint lstrip_by (p : N -> bool) (s : pystr) : pystr :=
  match s with
  | [] => []
  | c :: t => if p c then lstrip_by p t else s
  end.

(** [s.strip(chars)]: drop matching code points at both ends. *)
Definition strip_by (p : N -> bool) (s : pystr) : pystr :=
  rev (lstrip_by p (rev (lstrip_by p s))).

(** [s.strip()] *)
Definition py_strip (s : pystr) : pystr := strip_by py_isspace s.

(** [str.lower] restricted to ASCII: the instance used at concrete inputs. *)
Definition ascii_lower (s : pystr) : pystr :=
  map (fun c => if (65 <=? c) && (c <=? 90) then c + 32 else c) s.

(** [s.startswith(prefix)] *)
Fixpoint startswith (s prefix : pystr) : bool :=
  match prefix, s with
  | [], _ => true
  | p :: prefix', c :: s' => (p =? c) && startswith s' prefix'
  | _ :: _, [] => false
  end.

(** Python truthiness of a [str]. *)
Definition truthy (s : pystr) : bool :=
  match s with [] => false | _ => true end.

(** [a or b] on strings. *)
Definition str_or (a b : pystr) : pystr := if truthy a then a else b.

(* ------------------------------------------------------------------ *)
(** ** [sanitize_username] *)

Definition dash : N := 45.

(** Membership in the regex class [[a-z0-9_\-]]. *)
Definition in_class (c : N) : bool :=
  ((97 <=? c) && (c <=? 122)) || ((48 <=? c) && (c <=? 57)) ||
  (c =? 95) || (c =? dash).

(** [re.sub(r"[^a-z0-9_\-]+", "-", s)]: every maximal run of code points
    outside the class becomes one ["-"]; [pending] records that such a run
    has started and not yet been emitted. *)
Fixpoint sub_disallowed (pending : bool) (s : pystr) : pystr :=
  match s with
  | [] => if pending then [dash] else []
  | c :: t =>
      if in_class c
      then (if pending then [dash] else []) ++ c :: sub_disallowed false t
      else sub_disallowed true t
  end.

(** The replacement of a run of [n] hyphens by [re.sub(r"-{2,}", "-", .)]:
    runs of two or more become one hyphen, shorter runs are left as they are. *)
Definition emit_dashes (n : nat) : pystr :=
  if (2 <=? n)%nat then [dash] else repeat dash n.

(** [re.sub(r"-{2,}", "-", s)]; [n] counts the hyphens of the current run. *)
Fixpoint sub_dash_runs (n : nat) (s : pystr) : pystr :=
  match s with
  | [] => emit_dashes n
  | c :: t =>
      if c =? dash then sub_dash_runs (S n) t
      else emit_dashes n ++ c :: sub_dash_runs 0 t
  end.

Section Sanitize.
Variable py_lower : pystr -> pystr.

(** [sanitize_username(username, max_len)] *)
Definition sanitize_username_len (username : pystr) (max_len : nat) : pystr :=
  let s := py_lower (py_strip username) in
  let s := sub_disallowed false s in
  let s := strip_by (N.eqb dash) (sub_dash_runs 0 s) in
  match firstn max_len s with
  | [] => u "user"
  | r => r
  end.

(** [sanitize_username(username)] with the default [max_len = 64]. *)
Definition sanitize_username (username : pystr) : pystr :=
  sanitize_username_len username 64.
End Sanitize.

(** The full-match test of [^[a-z0-9_-]{1,64}$]. *)
Definition matches_safe_name (s : pystr) : bool :=
  (1 <=? length s)%nat && (length s <=? 64)%nat && forallb in_class s.

Example sanitize_ex1 :
  sanitize_username ascii_lower (u "  Hello, World!! ") = u "hello-world".
Proof. reflexivity. Qed.

Example sanitize_ex2 :
  sanitize_username ascii_lower (u "--a__b---c--") = u "a__b-c".
Proof. reflexivity. Qed.

Example sanitize_ex3 : sanitize_username ascii_lower (u "!!!") = u "user".
Proof. reflexivity. Qed.

(* ------------------------------------------------------------------ *)
(** ** Exceptions *)

(** The Python exceptions the handler distinguishes: [ValueError] is caught
    for a 400 answer, every other exception for a 500 answer. *)
Inductive exc :=
| ValueError (msg : pystr)
| RuntimeError (msg : pystr)
| OtherError (msg : pystr).

(** A call that returns a value or raises. *)
Inductive result (A : Type) :=
| Ok (a : A)
| Raise (e : exc).
Arguments Ok {A} a.
Arguments Raise {A} e.

Definition is_value_error (e : exc) : bool :=
  match e with ValueError _ => true | _ => false end.

(* ------------------------------------------------------------------ *)
(** ** [AudioSpec], [build_phrase], [os.path.join] *)

(** [os.path.join(a, b)] (POSIX). *)
Definition path_join (a b : pystr) : pystr :=
  if startswith b (u "/") then b
  else match rev a with
       | [] => b
       | c :: _ => if c =? 47 then a ++ b else a ++ u "/" ++ b
       end.

(** [action in ("join", "leave")] *)
Definition is_action (a : pystr) : bool :=
  pystr_eqb a (u "join") || pystr_eqb a (u "leave").

(** [build_phrase(username, action)] *)
Definition build_phrase (username action : pystr) : pystr :=
  if pystr_eqb action (u "join")
  then username ++ u " has joined the session."
  else username ++ u " has left the session.".

(** An [AudioSpec] object; [uuid_] is [self._uuid], the string of the
    [uuid.uuid4()] drawn by the constructor, taken here as an input. *)
Record AudioSpec := {
  username_raw : pystr;
  action : pystr;
  audio_dir : pystr;
  uuid_ : pystr
}.

(** [AudioSpec(username_raw, action, audio_dir)] with the drawn uuid. *)
Definition mk_audio_spec (username_raw action audio_dir uuid : pystr)
  : result AudioSpec :=
  if negb (is_action action)
  then Raise (ValueError (u "action must be 'join' or 'leave'"))
  else Ok {| username_raw := username_raw; action := action;
             audio_dir := audio_dir; uuid_ := uuid |}.

Definition tmp_wav_path (spec : AudioSpec) : pystr :=
  path_join (audio_dir spec) (u ".tmp_" ++ uuid_ spec ++ u ".wav").

Definition tmp_mp3_path (spec : AudioSpec) : pystr :=
  path_join (audio_dir spec) (u ".tmp_" ++ uuid_ spec ++ u ".mp3").

Definition phrase (spec : AudioSpec) : pystr :=
  build_phrase (username_raw spec) (action spec).

Section WithLower.
Variable py_lower : pystr -> pystr.

Definition username_safe (spec : AudioSpec) : pystr :=
  sanitize_username py_lower (username_raw spec).

(** [f"{self._uuid}_{self.username_safe}_{self.action}.ogg"] *)
Definition filename (spec : AudioSpec) : pystr :=
  uuid_ spec ++ u "_" ++ username_safe spec ++ u "_" ++ action spec ++ u ".ogg".

Definition ogg_path (spec : AudioSpec) : pystr :=
  path_join (audio_dir spec) (filename spec).

(** [AudioService.create_audio(username, action)]: [generate] is the
    engine's [generate_ogg], returning the ogg path or raising; [uuid] is
    the token [AudioSpec] draws.  ([ensure_dir] is a file-system effect
    without bearing on the result here.) *)
Definition create_audio (generate : AudioSpec -> result pystr)
    (svc_audio_dir uuid username action0 : pystr)
    : result (pystr * pystr) :=
  let act := py_lower (py_strip action0) in
  if negb (is_action act)
  then Raise (ValueError (u "Parameter 'action' must be 'join' or 'leave'."))
  else match mk_audio_spec username act svc_audio_dir uuid with
       | Raise e => Raise e
       | Ok spec =>
           match generate spec with
           | Ok ogg => Ok (ogg, filename spec)
           | Raise e => Raise e
           end
       end.
End WithLower.

(** Lowercase hexadecimal digit. *)
Definition is_hex_lower (c : N) : bool :=
  ((48 <=? c) && (c <=? 57)) || ((97 <=? c) && (c <=? 102)).

(** [str(uuid.uuid4())]: 8-4-4-4-12 lowercase hex digits separated by
    hyphens. *)
Definition uuid_shape (s : pystr) : bool :=
  (length s =? 36)%nat &&
  forallb (fun '(i, c) =>
             if existsb (Nat.eqb i) [8; 13; 18; 23]%nat then c =? dash
             else is_hex_lower c)
          (combine (seq 0 (length s)) s).

(** The full-match test of [^[0-9a-f-]{36}_alice_join\.ogg$]. *)
Definition matches_alice_join (f : pystr) : bool :=
  forallb (fun c => is_hex_lower c || (c =? dash)) (firstn 36 f) &&
  (length (firstn 36 f) =? 36)%nat &&
  pystr_eqb (skipn 36 f) (u "_alice_join.ogg").

Definition sample_uuid : pystr := u "1b4e28ba-2fa1-4d3b-a3f5-ef19b5a7633d".

Example uuid_shape_ex : uuid_shape sample_uuid = true.
Proof. reflexivity. Qed.

(* ------------------------------------------------------------------ *)
(** ** URL resolution: [is_valid_base_url], [build_file_url] *)

(** The two ways [build_file_url] produces a URL: [urljoin(base, path)] with
    the override, or Flask's [url_for("static", filename=..., _external=True)],
    which derives scheme and host from the inbound request. *)
Inductive file_url :=
| UrlJoin (base path : pystr)
| UrlForStatic (filename : pystr).

(** [s.lstrip('/')] and [s.rstrip('/')] *)
Definition lstrip_slash (s : pystr) : pystr := lstrip_by (N.eqb 47) s.
Definition rstrip_slash (s : pystr) : pystr := rev (lstrip_by (N.eqb 47) (rev s)).

(** [s.replace("\\", "/")] *)
Definition replace_backslash (s : pystr) : pystr :=
  map (fun c => if c =? 92 then 47 else c) s.

Section Urls.
Variable py_lower : pystr -> pystr.

(** [is_valid_base_url(value)] *)
Definition is_valid_base_url (value : pystr) : bool :=
  if negb (truthy value) then false
  else let v := py_lower (py_strip value) in
       startswith v (u "http://") || startswith v (u "https://").

(** [build_file_url(app, rel_static_path, base_url_override)] *)
Definition build_file_url (rel_static_path : pystr)
    (base_url_override : option pystr) : file_url :=
  let static_path := u "/static/" ++ lstrip_slash rel_static_path in
  match base_url_override with
  | Some b =>
      if truthy b && is_valid_base_url b
      then UrlJoin (rstrip_slash b ++ u "/") (lstrip_slash static_path)
      else UrlForStatic (replace_backslash rel_static_path)
  | None => UrlForStatic (replace_backslash rel_static_path)
  end.

(** Lines 360 and 396-397 of [tts_endpoint]: the override handed to
    [build_file_url] is [per_request_base or EXTERNAL_BASE_URL or None],
    where [per_request_base] is the stripped [base_url] argument. *)
Definition resolve_file_url (q_base_url : option pystr)
    (external_base_url rel_path : pystr) : file_url :=
  let per_request_base := py_strip (match q_base_url with
                                    | Some b => b | None => [] end) in
  let base_override :=
    if truthy per_request_base then Some per_request_base
    else if truthy external_base_url then Some external_base_url
    else None in
  build_file_url rel_path base_override.

(** The resolution the spec describes, tier by tier: the first of the
    per-request value and the configured default that is present and
    valid, else the request-derived URL. *)
Definition claimed_file_url (q_base_url : option pystr)
    (external_base_url rel_path : pystr) : file_url :=
  let tier1 := py_strip (match q_base_url with Some b => b | None => [] end) in
  let static_path := u "/static/" ++ lstrip_slash rel_path in
  if is_valid_base_url tier1
  then UrlJoin (rstrip_slash tier1 ++ u "/") (lstrip_slash static_path)
  else if is_valid_base_url external_base_url
  then UrlJoin (rstrip_slash external_base_url ++ u "/") (lstrip_slash static_path)
  else UrlForStatic (replace_backslash rel_path).
End Urls.

Example build_file_url_ex :
  build_file_url ascii_lower (u "audio/abc_join.ogg") (Some (u "https://cdn.example.com"))
  = UrlJoin (u "https://cdn.example.com/") (u "static/audio/abc_join.ogg").
Proof. reflexivity. Qed.

(* ------------------------------------------------------------------ *)
(** ** The application: configuration, engines, services, [/api/tts] *)

Definition opt_str (o : option pystr) : pystr :=
  match o with Some s => s | None => [] end.

(** [app.config] as set by [create_app]. *)
Record Config := {
  EXTERNAL_BASE_URL : pystr;
  ENGINE_NAME : pystr;
  GTTS_LANG : pystr;
  GTTS_TLD : pystr;
  PYTTSX3_VOICE : pystr;
  PYTTSX3_VOICE_INDEX : option Z
}.

(** The two [BaseTTS] subclasses, with their constructor arguments. *)
Inductive engine_kind :=
| PyTTSX3Generator (prefer_voice_substr : pystr) (voice_index : option Z)
| GTTSGenerator (lang tld : pystr).

(** Python objects carry an identity; [eng_id] and [svc_id] are the
    identities of an engine and of an [AudioService]. *)
Record Engine := { eng_id : nat; eng_kind : engine_kind }.

Record AudioService := {
  svc_id : nat;
  svc_audio_dir : pystr;
  svc_tts : Engine
}.

(** The state [create_app] sets up and the handler closes over: the
    configuration, the shared [service] (with the process-wide engine), the
    static folder, and the next free object identity. *)
Record App := {
  config : Config;
  service : AudioService;
  static_folder : pystr;
  next_id : nat
}.

(** The query arguments of [GET /api/tts]. *)
Record Request := {
  q_username : option pystr;
  q_action : option pystr;
  q_base_url : option pystr;
  q_engine : option pystr;
  q_lang : option pystr;
  q_tld : option pystr
}.

(** [abort(status, description=...)] or the JSON body answered with 200. *)
Inductive response :=
| HttpError (status : nat) (description : pystr)
| JsonOk (url : file_url) (filename engine : pystr).

Definition exc_msg (e : exc) : pystr :=
  match e with ValueError m | RuntimeError m | OtherError m => m end.

(** [os.path.relpath(ogg_path, static_folder)] for a path below the static
    folder, as the engines' [spec.ogg_path] is. *)
Definition relpath_static (p static : pystr) : pystr :=
  if startswith p (static ++ u "/") then skipn (S (length static)) p else p.

(** Lines 372-385 of [tts_endpoint]: the engine name of the request and the
    service serving it, with the next free identity.  [gtts_available] says
    whether the [gtts] import succeeded; otherwise the [GTTSGenerator]
    constructor raises, outside the handler's [try]. *)
Definition select_service (gtts_available : bool) (app : App)
    (req_engine req_lang req_tld : option pystr)
    : result (pystr * AudioService) * nat :=
  let cfg := config app in
  let current_engine_name :=
    match req_engine with
    | Some e => if pystr_eqb e (u "pyttsx3") || pystr_eqb e (u "gtts")
                then e else ENGINE_NAME cfg
    | None => ENGINE_NAME cfg
    end in
  if pystr_eqb current_engine_name (u "gtts") then
    let lang := str_or (opt_str req_lang) (GTTS_LANG cfg) in
    let tld := str_or (opt_str req_tld) (GTTS_TLD cfg) in
    if negb gtts_available
    then (Raise (RuntimeError (u "gTTS is not installed. `pip install gTTS`")),
          next_id app)
    else
      let local_tts := {| eng_id := next_id app; eng_kind := GTTSGenerator lang tld |} in
      let local_service := {| svc_id := S (next_id app);
                              svc_audio_dir := svc_audio_dir (service app);
                              svc_tts := local_tts |} in
      (Ok (current_engine_name, local_service), S (S (next_id app)))
  else (Ok (current_engine_name, service app), next_id app).

Section Endpoint.
Variable py_lower : pystr -> pystr.
Variable gtts_available : bool.
(** [generate e spec]: [e.generate_ogg(spec)], returning the ogg path or
    raising (synthesis and transcoding). *)
Variable generate : Engine -> AudioSpec -> result pystr.

(** [tts_endpoint()]; [uuid] is the [uuid4] string the request's
    [AudioSpec] draws.  An exception escaping the handler is answered by
    Flask with 500. *)
Definition tts_endpoint (uuid : pystr) (app : App) (rq : Request)
    : App * response :=
  let username := opt_str (q_username rq) in
  let action0 := opt_str (q_action rq) in
  if negb (truthy username) || negb (truthy action0)
  then (app, HttpError 400 (u "Missing 'username' or 'action'."))
  else
    let '(sel, nxt) := select_service gtts_available app
                         (q_engine rq) (q_lang rq) (q_tld rq) in
    let app' := {| config := config app; service := service app;
                   static_folder := static_folder app; next_id := nxt |} in
    match sel with
    | Raise e => (app', HttpError 500 (u "Internal Server Error"))
    | Ok (current_engine_name, local_service) =>
        match create_audio py_lower (generate (svc_tts local_service))
                (svc_audio_dir local_service) uuid username action0 with
        | Raise (ValueError m) => (app', HttpError 400 m)
        | Raise e => (app', HttpError 500 (u "TTS generation failed: " ++ exc_msg e))
        | Ok (ogg, fname) =>
            let rel_path := replace_backslash (relpath_static ogg (static_folder app)) in
            let file_url := resolve_file_url py_lower (q_base_url rq)
                              (EXTERNAL_BASE_URL (config app)) rel_path in
            (app', JsonOk file_url fname current_engine_name)
        end
    end.
End Endpoint.

(** A concrete application: default engine pyttsx3, configured default base
    URL [https://cdn.example.com]. *)
Definition app0 : App := {|
  config := {| EXTERNAL_BASE_URL := u "https://cdn.example.com";
               ENGINE_NAME := u "pyttsx3"; GTTS_LANG := u "en";
               GTTS_TLD := u "com"; PYTTSX3_VOICE := [];
               PYTTSX3_VOICE_INDEX := None |};
  service := {| svc_id := 1; svc_audio_dir := u "/srv/app/static/audio";
                svc_tts := {| eng_id := 0;
                              eng_kind := PyTTSX3Generator [] None |} |};
  static_folder := u "/srv/app/static";
  next_id := 2
|}.

(** An engine whose [generate_ogg] completes. *)
Definition generate_ok (e : Engine) (spec : AudioSpec) : result pystr :=
  Ok (ogg_path ascii_lower spec).

Definition request_of (username action base_url engine : option pystr) : Request :=
  {| q_username := username; q_action := action; q_base_url := base_url;
     q_engine := engine; q_lang := None; q_tld := None |}.

Example tts_endpoint_ex :
  snd (tts_endpoint ascii_lower true generate_ok sample_uuid app0
         (request_of (Some (u "Alice")) (Some (u "join")) None None))
  = JsonOk (UrlJoin (u "https://cdn.example.com/")
              (u "static/audio/1b4e28ba-2fa1-4d3b-a3f5-ef19b5a7633d_alice_join.ogg"))
           (u "1b4e28ba-2fa1-4d3b-a3f5-ef19b5a7633d_alice_join.ogg") (u "pyttsx3").
Proof. vm_compute; reflexivity. Qed.

(* ------------------------------------------------------------------ *)
(** ** Voice selection in [PyTTSX3Generator.__init__] *)

(** A pyttsx3 voice: its [id] (a driver identifier string) and its [name],
    which may be [None]. *)
Record Voice := { v_id : pystr; v_name : option pystr }.

(** The lines [__init__] prints while choosing a voice. *)
Inductive voice_log :=
| UsingVoiceIndex (index : Z) (id : pystr)
| VoiceIndexOutOfRange (index : Z) (count : nat)
| UsingVoiceBySubstring (prefer id : pystr)
| PreferredVoiceNotFound.

(** [needle in hay] on strings. *)
Fixpoint contains (hay needle : pystr) : bool :=
  startswith hay needle ||
  match hay with [] => false | _ :: hay' => contains hay' needle end.

Definition is_some {A} (o : option A) : bool :=
  match o with Some _ => true | None => false end.

Section VoiceSelection.
Variable py_lower : pystr -> pystr.

(** [needle in vid or needle in vname] *)
Definition voice_matches (needle : pystr) (v : Voice) : bool :=
  contains (py_lower (v_id v)) needle ||
  contains (py_lower (opt_str (v_name v))) needle.

(** The first [try] block of [PyTTSX3Generator.__init__]: the voice passed
    to [setProperty("voice", .)] ([None]: the engine default is kept) and
    the lines printed. *)
Definition select_voice (voices : list Voice) (prefer_voice_substr : pystr)
    (voice_index : option Z) : option pystr * list voice_log :=
  let '(chosen_id, log1) :=
    match voice_index with
    | Some i =>
        if (0 <=? i)%Z && (i <? Z.of_nat (length voices))%Z
        then let id := match nth_error voices (Z.to_nat i) with
                       | Some v => v_id v | None => [] end in
             (Some id, [UsingVoiceIndex i id])
        else (None, [VoiceIndexOutOfRange i (length voices)])
    | None => (None, [])
    end in
  let '(chosen_id, log2) :=
    if negb (is_some chosen_id) && truthy prefer_voice_substr
    then match find (voice_matches (py_lower prefer_voice_substr)) voices with
         | Some v => (Some (v_id v), [UsingVoiceBySubstring prefer_voice_substr (v_id v)])
         | None => (None, [])
         end
    else (chosen_id, []) in
  match chosen_id with
  | Some id =>
      if truthy id then (Some id, log1 ++ log2)
      else (None, log1 ++ log2 ++
             (if truthy prefer_voice_substr || is_some voice_index
              then [PreferredVoiceNotFound] else []))
  | None =>
      (None, log1 ++ log2 ++
             (if truthy prefer_voice_substr || is_some voice_index
              then [PreferredVoiceNotFound] else []))
  end.
End VoiceSelection.

Definition voices0 : list Voice :=
  [ {| v_id := u "english"; v_name := Some (u "English (Great Britain)") |};
    {| v_id := u "en-us"; v_name := Some (u "English (America)") |};
    {| v_id := u "fr-fr"; v_name := Some (u "French (France)") |} ].

Example select_voice_ex :
  fst (select_voice ascii_lower voices0 (u "AMERICA") (Some 7%Z)) = Some (u "en-us").
Proof. reflexivity. Qed.

(* ------------------------------------------------------------------ *)
(** ** [generate_ogg] and the files it leaves *)

(** The set of existing file paths. *)
Definition fs_exists (p : pystr) (fs : list pystr) : bool :=
  existsb (pystr_eqb p) fs.

Definition fs_add (p : pystr) (fs : list pystr) : list pystr :=
  if fs_exists p fs then fs else p :: fs.

Definition fs_remove (p : pystr) (fs : list pystr) : list pystr :=
  filter (fun q => negb (pystr_eqb p q)) fs.

(** How the synthesis step ([save_to_file] + [runAndWait] for pyttsx3,
    [gTTS(...)] + [tts.save] for gTTS) ends: it writes the intermediate
    file, or raises before writing it, or raises after writing it. *)
Inductive synth_outcome :=
| SynthOk
| SynthRaisesBeforeWrite (e : exc)
| SynthRaisesAfterWrite (e : exc).

(** How a single call ([AudioSegment] load and export, [os.remove]) ends. *)
Inductive step_outcome :=
| StepOk
| StepRaises (e : exc).

(** The intermediate file of each engine: [.tmp_<uuid>.wav] for pyttsx3,
    [.tmp_<uuid>.mp3] for gTTS. *)
Definition tmp_source_path (k : engine_kind) (spec : AudioSpec) : pystr :=
  match k with
  | PyTTSX3Generator _ _ => tmp_wav_path spec
  | GTTSGenerator _ _ => tmp_mp3_path spec
  end.

Section GenerateOgg.
Variable py_lower : pystr -> pystr.

(** [generate_ogg(spec)] of both engines: the files after the call, its
    result, and the lines it prints (it prints none). *)
Definition generate_ogg (k : engine_kind) (synth : synth_outcome)
    (transcode remove : step_outcome) (spec : AudioSpec) (fs : list pystr)
    : list pystr * result pystr * list pystr :=
  let tmp := tmp_source_path k spec in
  let ogg := ogg_path py_lower spec in
  match synth with
  | SynthRaisesBeforeWrite e => (fs, Raise e, [])
  | SynthRaisesAfterWrite e => (fs_add tmp fs, Raise e, [])
  | SynthOk =>
      let fs1 := fs_add tmp fs in
      (* try: transcode *)
      let '(fs2, r) := match transcode with
                       | StepOk => (fs_add ogg fs1, Ok ogg)
                       | StepRaises e => (fs1, Raise e)
                       end in
      (* finally: if os.path.exists(p): try os.remove(p) except: pass *)
      let fs3 := if fs_exists tmp fs2
                 then match remove with
                      | StepOk => fs_remove tmp fs2
                      | StepRaises _ => fs2
                      end
                 else fs2 in
      (fs3, r, [])
  end.
End GenerateOgg.

Definition spec0 : AudioSpec :=
  {| username_raw := u "Alice"; action := u "join";
     audio_dir := u "/srv/app/static/audio"; uuid_ := sample_uuid |}.

(* ------------------------------------------------------------------ *)
(** ** Shapes of sanitized names *)

(** No two consecutive hyphens. *)
Fixpoint no_double_dash (s : pystr) : bool :=
  match s with
  | a :: ((b :: _) as t) => negb ((a =? dash) && (b =? dash)) && no_double_dash t
  | _ => true
  end.

(** The first code point, if any, is not a hyphen. *)
Definition head_not_dash (s : pystr) : bool :=
  match s with c :: _ => negb (c =? dash) | [] => true end.

(** A name [sanitize_username] maps to itself: it matches
    [^[a-z0-9_-]{1,64}$], has no ["--"] and neither starts nor ends with
    ["-"]. *)
Definition sanitized_fixed (s : pystr) : bool :=
  matches_safe_name s && no_double_dash s && head_not_dash s &&
  head_not_dash (rev s).

(* ------------------------------------------------------------------ *)
(** ** [create_app], [list_voices] and [voice_test.get_voice_gender] *)

(** [create_app(...)] without the routes: the configuration, the default
    engine and the shared service.  [root] is the directory of [main.py];
    [pyttsx3_init_ok] says whether [pyttsx3.init()] succeeds and
    [gtts_available] whether the [gtts] import did; a failing constructor
    makes [create_app] raise. *)
Definition create_app (gtts_available pyttsx3_init_ok : bool) (root : pystr)
    (external_base_url engine_name tts_voice : pystr)
    (tts_voice_index : option Z) (gtts_lang_code gtts_tld : pystr)
    : result App :=
  let cfg := {| EXTERNAL_BASE_URL := external_base_url;
                ENGINE_NAME := engine_name;
                GTTS_LANG := gtts_lang_code; GTTS_TLD := gtts_tld;
                PYTTSX3_VOICE := tts_voice;
                PYTTSX3_VOICE_INDEX := tts_voice_index |} in
  let static_folder := path_join root (u "static") in
  let audio_dir := path_join (path_join root (u "static")) (u "audio") in
  let engine :=
    if pystr_eqb engine_name (u "gtts") then
      if gtts_available
      then Ok (GTTSGenerator gtts_lang_code gtts_tld)
      else Raise (RuntimeError (u "gTTS is not installed. `pip install gTTS`"))
    else if pyttsx3_init_ok
      then Ok (PyTTSX3Generator (str_or tts_voice []) tts_voice_index)
      else Raise (OtherError (u "pyttsx3.init() failed")) in
  match engine with
  | Raise e => Raise e
  | Ok k =>
      Ok {| config := cfg;
            service := {| svc_id := 1; svc_audio_dir := audio_dir;
                          svc_tts := {| eng_id := 0; eng_kind := k |} |};
            static_folder := static_folder;
            next_id := 2 |}
  end.

(** [PyTTSX3Generator.list_voices()]: one entry per voice, in enumeration
    order; the entry [(i, v)] is the dict [{"index": i, "id": v.id,
    "name": v.name, "languages": v.languages}]. *)
Definition list_voices (voices : list Voice) : list (nat * Voice) :=
  combine (seq 0 (length voices)) voices.

Section VoiceGender.
Variable py_lower : pystr -> pystr.

(** [get_voice_gender(voice)] of [voice_test.py]; [gender] is the voice's
    [gender] attribute.  A voice whose [name] is [None] makes [.lower()]
    raise [AttributeError]. *)
Definition get_voice_gender (gender : option pystr) (v : Voice)
    : result (option pystr) :=
  if truthy (opt_str gender) then Ok gender
  else
    match v_name v with
    | None => Raise (OtherError (u "AttributeError: 'NoneType' object has no attribute 'lower'"))
    | Some name0 =>
        let vid := py_lower (v_id v) in
        let name := py_lower name0 in
        if contains vid (u "+m") || contains name (u "male") then Ok (Some (u "Male"))
        else if contains vid (u "+f") || contains name (u "female") then Ok (Some (u "Female"))
        else Ok None
    end.
End VoiceGender.

(** [list_and_test_all_voices(sample_text, play=False)]: the lines printed
    (the header, one line per voice, the closing line) and whether it
    returned or raised.  Each voice comes with its [gender] attribute. *)
Inductive listing_line :=
| FoundVoices (n : nat)
| VoiceLine (index : nat) (name : option pystr) (id : pystr) (gender : pystr)
| AllVoicesListed.

Section ListVoicesCli.
Variable py_lower : pystr -> pystr.

(** The [for i, v in enumerate(voices)] loop building [metadata]. *)
Fixpoint gather_metadata (i : nat) (vs : list (option pystr * Voice))
    : result (list (nat * Voice * option pystr)) :=
  match vs with
  | [] => Ok []
  | (g, v) :: vs' =>
      match get_voice_gender py_lower g v with
      | Raise e => Raise e
      | Ok gd =>
          match gather_metadata (S i) vs' with
          | Raise e => Raise e
          | Ok ms => Ok ((i, v, gd) :: ms)
          end
      end
  end.

(** [m["gender"] or "Unknown"] *)
Definition gender_label (gd : option pystr) : pystr :=
  match gd with Some g => str_or g (u "Unknown") | None => u "Unknown" end.

Definition list_and_test_all_voices (vs : list (option pystr * Voice))
    : list listing_line * result unit :=
  let found := [FoundVoices (length vs)] in
  match gather_metadata 0 vs with
  | Raise e => (found, Raise e)
  | Ok ms =>
      (found ++ map (fun '(i, v, gd) => VoiceLine i (v_name v) (v_id v) (gender_label gd)) ms
             ++ [AllVoicesListed], Ok tt)
  end.
End ListVoicesCli.

(** The values [argparse] hands to [parse_args] (defaults filled in). *)
Record CliArgs := {
  host_arg : pystr;
  port_arg : Z;
  external_base_url_arg : pystr;
  engine_arg : pystr;
  tts_voice_arg : pystr;
  tts_voice_index_arg : option Z;
  gtts_lang_arg : pystr;
  gtts_tld_arg : pystr
}.

(** [parse_args()]: [--engine] outside its [choices] makes [argparse] exit;
    the string options are stripped. *)
Definition parse_args (a : CliArgs)
    : result (pystr * Z * pystr * pystr * pystr * option Z * pystr * pystr) :=
  if pystr_eqb (engine_arg a) (u "pyttsx3") || pystr_eqb (engine_arg a) (u "gtts")
  then Ok (host_arg a, port_arg a, py_strip (external_base_url_arg a), engine_arg a,
           py_strip (tts_voice_arg a), tts_voice_index_arg a,
           py_strip (gtts_lang_arg a), py_strip (gtts_tld_arg a))
  else Raise (OtherError (u "argument --engine: invalid choice")).

(** The [__main__] block up to [app.run]: the application built from the
    command line. *)
Definition main_app (gtts_available pyttsx3_init_ok : bool) (root : pystr)
    (a : CliArgs) : result App :=
  match parse_args a with
  | Raise e => Raise e
  | Ok (_, _, ext, engine_name, voice, idx, lang, tld) =>
      create_app gtts_available pyttsx3_init_ok root ext engine_name voice idx lang tld
  end.

(** No backslash. *)
Definition not_backslash (c : N) : bool := negb (c =? 92).

(** A voice [get_voice_gender] can describe: gender metadata or a name. *)
Definition voice_describable (gv : option pystr * Voice) : bool :=
  truthy (opt_str (fst gv)) || is_some (v_name (snd gv)).

(** A command line with a padded base URL. *)
Definition cli_example : CliArgs := {|
  host_arg := u "0.0.0.0"; port_arg := 4684%Z;
  external_base_url_arg := u " https://files.example.org/ ";
  engine_arg := u "pyttsx3"; tts_voice_arg := []; tts_voice_index_arg := None;
  gtts_lang_arg := u "en"; gtts_tld_arg := u "com" |}.

(* ------------------------------------------------------------------ *)
(** ** Lemmas on the sanitizer *)

Lemma forallb_in_class_dash : forallb in_class [dash] = true.
Proof. reflexivity. Qed.

Lemma sub_disallowed_class (b : bool) (s : pystr) :
  forallb in_class (sub_disallowed b s) = true.
Proof.
  revert b; induction s as [|c t IH]; intros b; simpl.
  - destruct b; reflexivity.
  - destruct (in_class c) eqn:Hc.
    + rewrite forallb_app; simpl; rewrite Hc, IH.
      destruct b; reflexivity.
    + apply IH.
Qed.

Lemma emit_dashes_class (n : nat) : forallb in_class (emit_dashes n) = true.
Proof.
  unfold emit_dashes; destruct (2 <=? n)%nat; [reflexivity|].
  induction n as [|n IH]; [reflexivity|]; simpl; exact IH.
Qed.

Lemma sub_dash_runs_class (n : nat) (s : pystr) :
  forallb in_class s = true -> forallb in_class (sub_dash_runs n s) = true.
Proof.
  revert n; induction s as [|c t IH]; intros n Hs; simpl in *.
  - apply emit_dashes_class.
  - apply andb_true_iff in Hs as [Hc Ht].
    destruct (c =? dash); [apply IH; exact Ht|].
    rewrite forallb_app, emit_dashes_class; simpl; rewrite Hc; apply IH; exact Ht.
Qed.

Lemma forallb_rev {A} (p : A -> bool) (s : list A) :
  forallb p (rev s) = forallb p s.
Proof.
  induction s as [|x s IH]; simpl; [reflexivity|].
  rewrite forallb_app, IH; simpl; rewrite andb_true_r, andb_comm; reflexivity.
Qed.

Lemma lstrip_by_forallb (p q : N -> bool) (s : pystr) :
  forallb q s = true -> forallb q (lstrip_by p s) = true.
Proof.
  induction s as [|c t IH]; simpl; [auto|].
  intros H; apply andb_true_iff in H as [Hc Ht].
  destruct (p c); [auto|]; simpl; rewrite Hc, Ht; reflexivity.
Qed.

Lemma strip_by_forallb (p q : N -> bool) (s : pystr) :
  forallb q s = true -> forallb q (strip_by p s) = true.
Proof.
  intros H; unfold strip_by; rewrite forallb_rev.
  apply lstrip_by_forallb; rewrite forallb_rev; apply lstrip_by_forallb; exact H.
Qed.

Lemma firstn_forallb {A} (p : A -> bool) (n : nat) (s : list A) :
  forallb p s = true -> forallb p (firstn n s) = true.
Proof.
  revert s; induction n as [|n IH]; intros [|x s] H; simpl in *; auto.
  apply andb_true_iff in H as [Hx Hs]; rewrite Hx; simpl; auto.
Qed.

(* ------------------------------------------------------------------ *)
(** ** Claims on the sanitizer *)

(** A username of 63 letters, a space and one more letter: its sanitized
    form is cut by the truncation right after a hyphen. *)
Definition long_username : pystr := repeat 97 63 ++ u " b".

(** Claim C2 (counterexample): [sanitize_username] is not idempotent.  On
    [long_username] the first pass yields 63 ["a"] and a trailing ["-"] (the
    hyphen is stripped before the 64-character cut, which then exposes it);
    the second pass strips that hyphen. *)
Lemma sanitize_username_not_idempotent :
  sanitize_username ascii_lower (sanitize_username ascii_lower long_username)
  <> sanitize_username ascii_lower long_username.
Proof. vm_compute; congruence. Qed.

Lemma sanitize_username_long_username :
  sanitize_username ascii_lower long_username = repeat 97 63 ++ [dash] /\
  sanitize_username ascii_lower (sanitize_username ascii_lower long_username)
  = repeat 97 63.
Proof. split; vm_compute; reflexivity. Qed.

(** Claim C3: for every case mapping standing for [str.lower] (one that maps
    [""] to [""], as [str.lower] does) and every string [s], the result of
    [sanitize_username] matches [^[a-z0-9_-]{1,64}$], and [""] sanitizes to
    ["user"].  The embedding is a total Rocq function, so the result exists
    for every input and depends on the input alone. *)
Theorem sanitize_username_safe (py_lower : pystr -> pystr)
  (Hnil : py_lower [] = []) (s : pystr) :
  matches_safe_name (sanitize_username py_lower s) = true /\
  sanitize_username py_lower (u "") = u "user".
Proof.
  split.
  - unfold sanitize_username, sanitize_username_len, matches_safe_name.
    set (r := strip_by (N.eqb dash) (sub_dash_runs 0 (sub_disallowed false
                (py_lower (py_strip s))))).
    assert (Hr : forallb in_class r = true).
    { apply strip_by_forallb, sub_dash_runs_class, sub_disallowed_class. }
    pose proof (firstn_forallb in_class 64 r Hr) as Hf.
    pose proof (firstn_le_length 64 r) as Hl.
    destruct (firstn 64 r) as [|c t] eqn:E; [reflexivity|].
    rewrite Hf, andb_true_r; apply andb_true_iff; split;
      apply Nat.leb_le; simpl in *; lia.
  - unfold sanitize_username, sanitize_username_len.
    replace (py_lower (py_strip (u ""))) with (@nil N)
      by (rewrite <- Hnil; reflexivity).
    reflexivity.
Qed.

Lemma sanitize_username_safe_witness :
  ascii_lower [] = [] /\
  matches_safe_name (sanitize_username ascii_lower long_username) = true /\
  sanitize_username ascii_lower (u "") = u "user".
Proof.
  split; [reflexivity|].
  apply (sanitize_username_safe ascii_lower); reflexivity.
Defined.

(* ------------------------------------------------------------------ *)
(** ** Lemmas on [AudioSpec] *)

Lemma pystr_eqb_eq (a b : pystr) : pystr_eqb a b = true <-> a = b.
Proof.
  revert b; induction a as [|x a IH]; intros [|y b]; simpl;
    try (split; congruence).
  rewrite andb_true_iff, N.eqb_eq, IH; split.
  - intros [-> ->]; reflexivity.
  - intros H; inversion H; auto.
Qed.

Lemma prefix_eq_length (a b x y : pystr) :
  length a = length b -> a ++ x = b ++ y -> a = b.
Proof.
  revert b; induction a as [|c a IH]; intros [|d b] Hl H; simpl in *;
    try discriminate; [reflexivity|].
  inversion H; subst; f_equal; apply IH; congruence.
Qed.

Lemma combine_seq_forallb (f : nat * N -> bool) (g : N -> bool)
  (Hfg : forall i c, f (i, c) = true -> g c = true) (k : nat) (s : pystr) :
  forallb f (combine (seq k (length s)) s) = true -> forallb g s = true.
Proof.
  revert k; induction s as [|c s IH]; intros k H; simpl in *; [reflexivity|].
  apply andb_true_iff in H as [Hc Hs].
  rewrite (Hfg _ _ Hc); apply (IH (S k)); exact Hs.
Qed.

Lemma uuid_shape_chars (t : pystr) :
  uuid_shape t = true ->
  length t = 36%nat /\ forallb (fun c => is_hex_lower c || (c =? dash)) t = true.
Proof.
  unfold uuid_shape; intros H; apply andb_true_iff in H as [Hl H].
  split; [apply Nat.eqb_eq; exact Hl|].
  revert H; apply combine_seq_forallb.
  intros i c; destruct (existsb (Nat.eqb i) _); intros Hc.
  - rewrite Hc, orb_true_r; reflexivity.
  - rewrite Hc; reflexivity.
Qed.

Lemma mk_audio_spec_ok (n a d t : pystr) (s : AudioSpec) :
  mk_audio_spec n a d t = Ok s ->
  is_action a = true /\
  s = {| username_raw := n; action := a; audio_dir := d; uuid_ := t |}.
Proof.
  unfold mk_audio_spec; destruct (is_action a); simpl; intros H;
    inversion H; auto.
Qed.

(* ------------------------------------------------------------------ *)
(** ** Claims on file names, phrases and [create_audio] *)

(** Claim C4: an [AudioSpec] built with a uuid string [t] has the file name
    [t ++ "_" ++ sanitized username ++ "_" ++ action ++ ".ogg"]; two specs
    whose uuid strings differ have different file names; for ["Alice"] and
    ["join"] the name matches [^[0-9a-f-]{36}_alice_join\.ogg$].  ([py_lower]
    stands for [str.lower], which maps ["Alice"] to ["alice"].) *)
Theorem audio_spec_filename_unique (py_lower : pystr -> pystr)
  (Halice : py_lower (u "Alice") = u "alice")
  (n1 n2 a1 a2 d1 d2 t1 t2 : pystr) (s1 s2 : AudioSpec)
  (Ht1 : uuid_shape t1 = true) (Ht2 : uuid_shape t2 = true)
  (H1 : mk_audio_spec n1 a1 d1 t1 = Ok s1)
  (H2 : mk_audio_spec n2 a2 d2 t2 = Ok s2) :
  filename py_lower s1
    = t1 ++ u "_" ++ sanitize_username py_lower n1 ++ u "_" ++ a1 ++ u ".ogg" /\
  (t1 <> t2 -> filename py_lower s1 <> filename py_lower s2) /\
  (forall d, exists s, mk_audio_spec (u "Alice") (u "join") d t1 = Ok s /\
                  matches_alice_join (filename py_lower s) = true).
Proof.
  apply mk_audio_spec_ok in H1 as [_ ->]; apply mk_audio_spec_ok in H2 as [_ ->].
  destruct (uuid_shape_chars t1 Ht1) as [Hl1 Hc1].
  destruct (uuid_shape_chars t2 Ht2) as [Hl2 _].
  split; [reflexivity|]; split.
  - intros Hne Heq; apply Hne; unfold filename in Heq; simpl in Heq.
    eapply prefix_eq_length; [|exact Heq]; congruence.
  - intros d; eexists; split; [reflexivity|].
    unfold filename, username_safe, sanitize_username, sanitize_username_len;
      simpl.
    replace (py_lower (py_strip (u "Alice"))) with (u "alice")
      by (rewrite <- Halice; reflexivity).
    unfold matches_alice_join.
    rewrite <- Hl1, firstn_app, Nat.sub_diag, firstn_all, app_nil_r,
      skipn_app, Nat.sub_diag, skipn_all; simpl.
    rewrite Hc1, Nat.eqb_refl; reflexivity.
Qed.

Lemma audio_spec_filename_unique_witness :
  exists s1 s2 : AudioSpec,
    mk_audio_spec (u "Alice") (u "join") (u "static/audio") sample_uuid = Ok s1 /\
    mk_audio_spec (u "Alice") (u "join") (u "static/audio")
      (u "9f0c1d2e-3a4b-4c5d-8e6f-7a8b9c0d1e2f") = Ok s2 /\
    filename ascii_lower s1 <> filename ascii_lower s2.
Proof.
  eexists; eexists; split; [reflexivity|]; split; [reflexivity|].
  refine (proj1 (proj2 (audio_spec_filename_unique ascii_lower eq_refl
            (u "Alice") (u "Alice") (u "join") (u "join")
            (u "static/audio") (u "static/audio")
            sample_uuid (u "9f0c1d2e-3a4b-4c5d-8e6f-7a8b9c0d1e2f") _ _
            eq_refl eq_refl eq_refl eq_refl)) _).
  vm_compute; congruence.
Defined.

(** Claim C7: the phrase of a spec is the raw, unsanitized username followed
    by [" has joined the session."] for ["join"] and
    [" has left the session."] for ["leave"]. *)
Theorem audio_spec_phrase (n d t : pystr) :
  mk_audio_spec n (u "join") d t
    = Ok {| username_raw := n; action := u "join"; audio_dir := d; uuid_ := t |} /\
  phrase {| username_raw := n; action := u "join"; audio_dir := d; uuid_ := t |}
    = n ++ u " has joined the session." /\
  mk_audio_spec n (u "leave") d t
    = Ok {| username_raw := n; action := u "leave"; audio_dir := d; uuid_ := t |} /\
  phrase {| username_raw := n; action := u "leave"; audio_dir := d; uuid_ := t |}
    = n ++ u " has left the session.".
Proof. repeat split. Qed.

(** Claim C10: [create_audio] trims and lowercases [action] before the check;
    an action whose trimmed, lowercased form is ["join"] or ["leave"] is not
    rejected but handed to the engine as that canonical event, and the
    result is exactly the engine's. *)
Theorem create_audio_normalizes_action (py_lower : pystr -> pystr)
  (generate : AudioSpec -> result pystr) (dir t username action0 ev : pystr)
  (Hev : ev = u "join" \/ ev = u "leave")
  (Hnorm : py_lower (py_strip action0) = ev) :
  create_audio py_lower generate dir t username action0 =
  let spec := {| username_raw := username; action := ev;
                 audio_dir := dir; uuid_ := t |} in
  match generate spec with
  | Ok ogg => Ok (ogg, filename py_lower spec)
  | Raise e => Raise e
  end.
Proof.
  unfold create_audio; rewrite Hnorm.
  destruct Hev as [-> | ->]; reflexivity.
Qed.

Lemma create_audio_normalizes_action_witness :
  create_audio ascii_lower (fun s => Ok (ogg_path ascii_lower s))
    (u "static/audio") sample_uuid (u "Bob") (u " Leave ") =
  Ok (u "static/audio/1b4e28ba-2fa1-4d3b-a3f5-ef19b5a7633d_bob_leave.ogg",
      u "1b4e28ba-2fa1-4d3b-a3f5-ef19b5a7633d_bob_leave.ogg").
Proof.
  rewrite (create_audio_normalizes_action ascii_lower
             (fun s => Ok (ogg_path ascii_lower s)) (u "static/audio")
             sample_uuid (u "Bob") (u " Leave ") (u "leave")
             (or_intror eq_refl) eq_refl).
  vm_compute; reflexivity.
Defined.

(* ------------------------------------------------------------------ *)
(** ** Claims on URL resolution *)

(** Where the per-request value is absent, blank or valid, the code resolves
    the URL tier by tier as described. *)
Lemma resolve_file_url_tiers (py_lower : pystr -> pystr)
  (q : option pystr) (ext rel : pystr)
  (Hq : truthy (py_strip (opt_str q)) = false \/
        is_valid_base_url py_lower (py_strip (opt_str q)) = true) :
  resolve_file_url py_lower q ext rel = claimed_file_url py_lower q ext rel.
Proof.
  unfold resolve_file_url, claimed_file_url; fold (opt_str q).
  destruct Hq as [Hq | Hq].
  - rewrite Hq; unfold is_valid_base_url at 1; rewrite Hq; simpl.
    destruct (truthy ext) eqn:He; simpl.
    + unfold is_valid_base_url; rewrite He; simpl.
      destruct (_ || _); reflexivity.
    + unfold is_valid_base_url; rewrite He; reflexivity.
  - rewrite Hq.
    assert (Ht : truthy (py_strip (opt_str q)) = true).
    { unfold is_valid_base_url in Hq; destruct (truthy _); [reflexivity|discriminate]. }
    rewrite Ht; simpl; rewrite Hq, Ht; reflexivity.
Qed.

Lemma resolve_file_url_tiers_witness :
  resolve_file_url ascii_lower (Some (u "https://cdn.example.com")) []
    (u "audio/abc_join.ogg")
  = UrlJoin (u "https://cdn.example.com/") (u "static/audio/abc_join.ogg").
Proof.
  rewrite resolve_file_url_tiers by (right; reflexivity).
  reflexivity.
Defined.

(** Claim C1 (counterexample): with the per-request [base_url] ["ftp://x"]
    and the valid configured default [https://cdn.example.com], the code does
    not fall through to the configured default: the non-empty per-request
    value shadows it, fails [is_valid_base_url], and the request-derived
    URL is used. *)
Lemma resolve_file_url_invalid_override_skips_default :
  resolve_file_url ascii_lower (Some (u "ftp://x")) (u "https://cdn.example.com")
    (u "audio/abc_join.ogg")
  <> claimed_file_url ascii_lower (Some (u "ftp://x")) (u "https://cdn.example.com")
       (u "audio/abc_join.ogg").
Proof. vm_compute; congruence. Qed.

(** The handler at that input: [GET /api/tts?username=Alice&action=join&base_url=ftp://x]
    on an app configured with [--external-base-url https://cdn.example.com]
    answers with the request-derived [url_for] URL. *)
Theorem tts_endpoint_invalid_override_url :
  snd (tts_endpoint ascii_lower true generate_ok sample_uuid app0
         (request_of (Some (u "Alice")) (Some (u "join")) (Some (u "ftp://x")) None))
  = JsonOk (UrlForStatic (u "audio/1b4e28ba-2fa1-4d3b-a3f5-ef19b5a7633d_alice_join.ogg"))
           (u "1b4e28ba-2fa1-4d3b-a3f5-ef19b5a7633d_alice_join.ogg") (u "pyttsx3").
Proof. vm_compute; reflexivity. Qed.

(* ------------------------------------------------------------------ *)
(** ** Claims on [/api/tts] *)

(** Claim C5 (counterexample): an action outside the literal set
    [{join, leave}] is not rejected: ["JOIN"] is normalized and served
    with 200. *)
Lemma tts_endpoint_uppercase_action_ok :
  snd (tts_endpoint ascii_lower true generate_ok sample_uuid app0
         (request_of (Some (u "Alice")) (Some (u "JOIN")) None None))
  = JsonOk (UrlJoin (u "https://cdn.example.com/")
              (u "static/audio/1b4e28ba-2fa1-4d3b-a3f5-ef19b5a7633d_alice_join.ogg"))
           (u "1b4e28ba-2fa1-4d3b-a3f5-ef19b5a7633d_alice_join.ogg") (u "pyttsx3").
Proof. vm_compute; reflexivity. Qed.

(** Claim C5 (as amended): [/api/tts] answers 400 when [username] or
    [action] is missing or empty; once the request's engine is built, it
    answers 400 when the trimmed, lowercased action is neither ["join"] nor
    ["leave"], and 500 when the action is valid and generation raises an
    exception other than [ValueError]; it answers 200 only when the action
    is valid and generation returned, the file name being that of the
    generated spec. *)
Theorem tts_endpoint_status (py_lower : pystr -> pystr) (gtts_available : bool)
  (generate : Engine -> AudioSpec -> result pystr) (uuid : pystr)
  (app : App) (rq : Request) :
  let username := opt_str (q_username rq) in
  let action0 := opt_str (q_action rq) in
  let act := py_lower (py_strip action0) in
  let resp := snd (tts_endpoint py_lower gtts_available generate uuid app rq) in
  ((truthy username = false \/ truthy action0 = false) ->
     resp = HttpError 400 (u "Missing 'username' or 'action'.")) /\
  (forall cur local nxt,
     truthy username = true -> truthy action0 = true ->
     select_service gtts_available app (q_engine rq) (q_lang rq) (q_tld rq)
       = (Ok (cur, local), nxt) ->
     (is_action act = false -> exists m, resp = HttpError 400 m) /\
     (is_action act = true -> forall e,
        generate (svc_tts local)
          {| username_raw := username; action := act;
             audio_dir := svc_audio_dir local; uuid_ := uuid |} = Raise e ->
        is_value_error e = false -> exists m, resp = HttpError 500 m)) /\
  (forall url fname eng, resp = JsonOk url fname eng ->
     exists local nxt ogg,
       select_service gtts_available app (q_engine rq) (q_lang rq) (q_tld rq)
         = (Ok (eng, local), nxt) /\
       is_action act = true /\
       generate (svc_tts local)
         {| username_raw := username; action := act;
            audio_dir := svc_audio_dir local; uuid_ := uuid |} = Ok ogg /\
       fname = filename py_lower
         {| username_raw := username; action := act;
            audio_dir := svc_audio_dir local; uuid_ := uuid |}).
Proof.
  cbv zeta; unfold tts_endpoint; split; [|split].
  - intros [H | H]; rewrite H; simpl; [reflexivity|].
    rewrite orb_true_r; reflexivity.
  - intros cur local nxt Hu Ha Hsel; rewrite Hu, Ha, Hsel; simpl.
    unfold create_audio; split.
    + intros Hact; rewrite Hact; simpl; eexists; reflexivity.
    + intros Hact e Hgen Hve; rewrite Hact; simpl.
      unfold mk_audio_spec; rewrite Hact; simpl; rewrite Hgen.
      destruct e; simpl in Hve; try discriminate; eexists; reflexivity.
  - intros url fname eng.
    destruct (truthy (opt_str (q_username rq))) eqn:Hu; simpl;
      [|intros H; discriminate H].
    destruct (truthy (opt_str (q_action rq))) eqn:Ha; simpl;
      [|intros H; discriminate H].
    destruct (select_service gtts_available app (q_engine rq) (q_lang rq) (q_tld rq))
      as [[[cur local] | e] nxt] eqn:Hsel; simpl; [|intros H; discriminate H].
    unfold create_audio.
    destruct (is_action (py_lower (py_strip (opt_str (q_action rq))))) eqn:Hact;
      simpl; [|intros H; discriminate H].
    unfold mk_audio_spec; rewrite Hact; simpl.
    destruct (generate (svc_tts local) _) as [ogg | e] eqn:Hgen; simpl.
    + intros H; inversion H; subst.
      exists local, nxt, ogg; repeat split; assumption.
    + destruct e; simpl; intros H; discriminate H.
Qed.

Lemma tts_endpoint_status_witness :
  exists m, snd (tts_endpoint ascii_lower true
                   (fun _ _ => Raise (OtherError (u "codec failure")))
                   sample_uuid app0
                   (request_of (Some (u "Alice")) (Some (u "join")) None None))
            = HttpError 500 m.
Proof.
  refine (proj2 (proj1 (proj2 (tts_endpoint_status ascii_lower true
             (fun _ _ => Raise (OtherError (u "codec failure"))) sample_uuid app0
             (request_of (Some (u "Alice")) (Some (u "join")) None None)))
             (u "pyttsx3") (service app0) (next_id app0)
             eq_refl eq_refl eq_refl) eq_refl (OtherError (u "codec failure"))
             eq_refl eq_refl).
Defined.

Lemma select_service_next_id (b : bool) (app : App) (e l t : option pystr) :
  (next_id app <= snd (select_service b app e l t))%nat.
Proof.
  unfold select_service; simpl.
  destruct (pystr_eqb _ (u "gtts")); [destruct b|]; simpl; lia.
Qed.

(** Claim C9 (counterexample): a request carrying an engine override
    [engine=pyttsx3] and a [lang] override, on an app whose default engine
    is pyttsx3, is served by the shared service and its process-wide
    engine: nothing is constructed for it. *)
Lemma select_service_pyttsx3_override_shared :
  select_service true app0 (Some (u "pyttsx3")) (Some (u "fr")) None
  = (Ok (u "pyttsx3", service app0), next_id app0).
Proof. reflexivity. Qed.

(** Claim C9 (as amended): when the request's engine resolves to gtts (by
    override or by default), the handler builds a fresh [GTTSGenerator]
    (request [lang]/[tld] when non-empty, else the configured ones) and a
    fresh [AudioService] over the shared audio directory, both with
    identities no existing object has; with the default engine pyttsx3 and
    no gtts override, the shared service serves the request, whatever
    engine, lang or tld arguments it carries; and no request changes the
    configuration, the shared service or its engine. *)
Theorem tts_endpoint_engine_scope (py_lower : pystr -> pystr)
  (gtts_available : bool) (generate : Engine -> AudioSpec -> result pystr)
  (uuid : pystr) (app : App) (rq : Request) :
  let app' := fst (tts_endpoint py_lower gtts_available generate uuid app rq) in
  config app' = config app /\ service app' = service app /\
  static_folder app' = static_folder app /\ (next_id app <= next_id app')%nat /\
  (forall cur local nxt,
     select_service gtts_available app (q_engine rq) (q_lang rq) (q_tld rq)
       = (Ok (cur, local), nxt) ->
     (cur = u "gtts" ->
        (next_id app <= svc_id local)%nat /\
        (next_id app <= eng_id (svc_tts local))%nat /\
        svc_id local <> eng_id (svc_tts local) /\
        eng_kind (svc_tts local)
          = GTTSGenerator (str_or (opt_str (q_lang rq)) (GTTS_LANG (config app)))
                          (str_or (opt_str (q_tld rq)) (GTTS_TLD (config app))) /\
        svc_audio_dir local = svc_audio_dir (service app)) /\
     (ENGINE_NAME (config app) = u "pyttsx3" -> cur <> u "gtts" ->
        local = service app)).
Proof.
  cbv zeta; split; [|split; [|split; [|split]]].
  1-4: unfold tts_endpoint;
       destruct (negb _ || negb _); [simpl; auto|];
       pose proof (select_service_next_id gtts_available app (q_engine rq)
                     (q_lang rq) (q_tld rq)) as Hn;
       destruct (select_service _ _ _ _ _) as [sel nxt]; simpl in Hn;
       destruct sel as [[cur local] | e]; simpl; auto;
       destruct (create_audio _ _ _ _ _ _) as [[ogg f] | [m | m | m]]; simpl; auto.
  intros cur local nxt Hsel; split.
  - intros Hcur; subst cur.
    unfold select_service in Hsel; simpl in Hsel.
    destruct (pystr_eqb _ (u "gtts")) eqn:Hg;
      [|injection Hsel as Hc _ _; rewrite Hc in Hg; vm_compute in Hg; discriminate].
    destruct gtts_available; simpl in Hsel; [|discriminate].
    inversion Hsel; subst; simpl; repeat split; lia.
  - intros Hdef Hcur.
    unfold select_service in Hsel; simpl in Hsel.
    destruct (pystr_eqb _ (u "gtts")) eqn:Hg.
    + apply pystr_eqb_eq in Hg.
      destruct gtts_available; simpl in Hsel; [|discriminate].
      inversion Hsel; subst; contradiction.
    + inversion Hsel; reflexivity.
Qed.

Lemma tts_endpoint_engine_scope_witness :
  exists local nxt,
    select_service true app0 (Some (u "gtts")) None (Some (u "co.uk"))
      = (Ok (u "gtts", local), nxt) /\
    eng_kind (svc_tts local) = GTTSGenerator (u "en") (u "co.uk") /\
    (next_id app0 <= svc_id local)%nat.
Proof.
  eexists; eexists; split; [reflexivity|].
  destruct (proj1 (proj2 (proj2 (proj2 (proj2 (tts_endpoint_engine_scope
              ascii_lower true generate_ok sample_uuid app0
              {| q_username := Some (u "Alice"); q_action := Some (u "join");
                 q_base_url := None; q_engine := Some (u "gtts");
                 q_lang := None; q_tld := Some (u "co.uk") |}))))
              (u "gtts") _ _ eq_refl) eq_refl) as (H1 & _ & _ & H4 & _).
  split; [exact H4|exact H1].
Defined.

(* ------------------------------------------------------------------ *)
(** ** Claim on voice selection *)

(** Whether [voice_index] is given and in range of [voices]. *)
Definition index_selects (voices : list Voice) (idx : option Z) : bool :=
  match idx with
  | Some i => (0 <=? i)%Z && (i <? Z.of_nat (length voices))%Z
  | None => false
  end.

Lemma find_first {A} (p : A -> bool) (pre : list A) (x : A) (post : list A) :
  forallb (fun y => negb (p y)) pre = true -> p x = true ->
  find p (pre ++ x :: post) = Some x.
Proof.
  induction pre as [|y pre IH]; simpl; intros Hpre Hx; [rewrite Hx; reflexivity|].
  apply andb_true_iff in Hpre as [Hy Hpre].
  destruct (p y); [discriminate|]; apply IH; assumption.
Qed.

Lemma find_none_forallb {A} (p : A -> bool) (l : list A) :
  forallb (fun y => negb (p y)) l = true -> find p l = None.
Proof.
  induction l as [|y l IH]; simpl; [reflexivity|]; intros H.
  apply andb_true_iff in H as [Hy H]; destruct (p y); [discriminate|auto].
Qed.

Lemma in_range_nth (voices : list Voice) (i : Z) (v : Voice) :
  (0 <= i)%Z -> nth_error voices (Z.to_nat i) = Some v ->
  index_selects voices (Some i) = true.
Proof.
  intros Hi Hn; simpl.
  assert (Hl : (Z.to_nat i < length voices)%nat)
    by (apply nth_error_Some; congruence).
  apply andb_true_iff; split; [apply Z.leb_le | apply Z.ltb_lt]; lia.
Qed.

(** Claim C6: with every voice id a non-empty driver identifier, voice
    selection picks the voice at an in-range index whatever the substring
    preference; failing that, the first voice in enumeration order whose
    lowercased id or name contains the lowercased preference; failing that,
    it keeps the engine default and only prints that the preferred voice was
    not found, and an out-of-range index is only printed.  The selection is
    a total function: it never raises. *)
Theorem select_voice_precedence (py_lower : pystr -> pystr)
  (voices : list Voice) (prefer : pystr)
  (Hids : forallb (fun v => truthy (v_id v)) voices = true) :
  (forall i v, (0 <= i)%Z -> nth_error voices (Z.to_nat i) = Some v ->
     fst (select_voice py_lower voices prefer (Some i)) = Some (v_id v)) /\
  (forall idx pre v post,
     index_selects voices idx = false -> truthy prefer = true ->
     voices = pre ++ v :: post ->
     forallb (fun w => negb (voice_matches py_lower (py_lower prefer) w)) pre = true ->
     voice_matches py_lower (py_lower prefer) v = true ->
     fst (select_voice py_lower voices prefer idx) = Some (v_id v)) /\
  (forall idx,
     index_selects voices idx = false ->
     (truthy prefer = false \/
      forallb (fun w => negb (voice_matches py_lower (py_lower prefer) w)) voices = true) ->
     fst (select_voice py_lower voices prefer idx) = None /\
     (forall i, idx = Some i ->
        In (VoiceIndexOutOfRange i (length voices))
           (snd (select_voice py_lower voices prefer idx))) /\
     (truthy prefer || is_some idx = true ->
        In PreferredVoiceNotFound (snd (select_voice py_lower voices prefer idx)))).
Proof.
  pose proof (proj1 (forallb_forall _ voices) Hids) as Hid.
  split; [|split].
  - intros i v Hi Hn.
    pose proof (in_range_nth voices i v Hi Hn) as Hr; simpl in Hr.
    unfold select_voice; rewrite Hr, Hn; simpl.
    rewrite (Hid v (nth_error_In _ _ Hn)); reflexivity.
  - intros idx pre v post Hr Hp Hv Hpre Hm.
    assert (Hf : find (voice_matches py_lower (py_lower prefer)) voices = Some v)
      by (rewrite Hv; apply find_first; assumption).
    assert (Hin : In v voices) by (rewrite Hv; apply in_or_app; right; left; reflexivity).
    unfold select_voice.
    destruct idx as [i|]; simpl in Hr; [rewrite Hr|]; simpl; rewrite Hp, Hf;
      simpl; rewrite (Hid v Hin); reflexivity.
  - intros idx Hr Hnone.
    unfold select_voice.
    destruct idx as [i|]; simpl in Hr; [rewrite Hr|]; simpl;
      (destruct Hnone as [Hp | Hall];
       [rewrite Hp
       | rewrite (find_none_forallb _ _ Hall); destruct (truthy prefer) eqn:Hp]);
      simpl; (split; [reflexivity|split]);
      intros; try discriminate; simpl in *;
      try match goal with H : Some _ = Some _ |- _ => injection H as <- end;
      tauto.
Qed.

Lemma select_voice_precedence_witness :
  fst (select_voice ascii_lower voices0 (u "FRENCH") (Some 1%Z)) = Some (u "en-us") /\
  fst (select_voice ascii_lower voices0 (u "FRENCH") (Some 9%Z)) = Some (u "fr-fr").
Proof.
  destruct (select_voice_precedence ascii_lower voices0 (u "FRENCH") eq_refl)
    as [H1 [H2 _]].
  split.
  - apply (H1 1%Z {| v_id := u "en-us"; v_name := Some (u "English (America)") |});
      [lia | reflexivity].
  - apply (H2 (Some 9%Z) (firstn 2 voices0)
             {| v_id := u "fr-fr"; v_name := Some (u "French (France)") |} []);
      reflexivity.
Defined.

(* ------------------------------------------------------------------ *)
(** ** Claim on the intermediate file *)

Lemma fs_exists_remove (p : pystr) (fs : list pystr) :
  fs_exists p (fs_remove p fs) = false.
Proof.
  induction fs as [|q fs IH]; simpl; [reflexivity|].
  destruct (pystr_eqb p q) eqn:E; simpl; [exact IH|].
  rewrite E; exact IH.
Qed.

(** Claim C8 (counterexample): when [os.remove] of the intermediate WAV
    raises, the file is still there after [generate_ogg] returns and
    nothing is printed: the failure is swallowed, not logged. *)
Lemma generate_ogg_remove_failure_silent :
  let '(fs, r, printed) :=
    generate_ogg ascii_lower (PyTTSX3Generator [] None) SynthOk StepOk
      (StepRaises (OtherError (u "PermissionError"))) spec0 [] in
  fs_exists (tmp_wav_path spec0) fs = true /\ printed = [] /\
  r = Ok (ogg_path ascii_lower spec0).
Proof. vm_compute; auto. Qed.

(** Claim C8 (as amended): for either engine, once synthesis has returned,
    [generate_ogg] leaves no intermediate file whenever [os.remove]
    succeeds, whether the transcode succeeded or raised; a failed removal is
    silently ignored (nothing is printed) and never propagated: the call
    returns the ogg path or raises the transcode's exception, whatever the
    removal did. *)
Theorem generate_ogg_cleans_tmp (py_lower : pystr -> pystr) (k : engine_kind)
  (transcode remove : step_outcome) (spec : AudioSpec) (fs : list pystr) :
  let '(fs', r, printed) := generate_ogg py_lower k SynthOk transcode remove spec fs in
  (remove = StepOk -> fs_exists (tmp_source_path k spec) fs' = false) /\
  printed = [] /\
  r = match transcode with
      | StepOk => Ok (ogg_path py_lower spec)
      | StepRaises e => Raise e
      end.
Proof.
  unfold generate_ogg.
  destruct transcode as [|e]; (split; [|split; reflexivity]); intros ->;
    match goal with
    | |- fs_exists ?p (if fs_exists ?p ?X then _ else _) = false =>
        destruct (fs_exists p X) eqn:Ht; [apply fs_exists_remove | exact Ht]
    end.
Qed.

Lemma generate_ogg_cleans_tmp_witness :
  fs_exists (tmp_mp3_path spec0)
    (fst (fst (generate_ogg ascii_lower (GTTSGenerator (u "en") (u "com"))
                 SynthOk (StepRaises (OtherError (u "CouldntDecodeError")))
                 StepOk spec0 []))) = false.
Proof.
  pose proof (generate_ogg_cleans_tmp ascii_lower (GTTSGenerator (u "en") (u "com"))
                (StepRaises (OtherError (u "CouldntDecodeError"))) StepOk spec0 [])
    as H.
  destruct (generate_ogg _ _ _ _ _ _ _) as [[fs r] printed]; simpl.
  destruct H as [H _]; apply H; reflexivity.
Defined.

(* ================================================================== *)
(** * Further properties of the code *)

(* ------------------------------------------------------------------ *)
(** ** The sanitizer *)

Lemma no_double_dash_cons (c : N) (s : pystr) :
  no_double_dash (c :: s) =
  negb ((c =? dash) && negb (head_not_dash s)) && no_double_dash s.
Proof.
  destruct s as [|d s]; simpl; [destruct (c =? dash); reflexivity|].
  rewrite negb_involutive; reflexivity.
Qed.

Lemma emit_dashes_cases (n : nat) : emit_dashes n = [] \/ emit_dashes n = [dash].
Proof.
  unfold emit_dashes; destruct (2 <=? n)%nat eqn:E; [right; reflexivity|].
  apply Nat.leb_gt in E; destruct n as [|[|n]]; simpl; auto; lia.
Qed.

Lemma sub_dash_runs_no_double (n : nat) (s : pystr) :
  no_double_dash (sub_dash_runs n s) = true.
Proof.
  revert n; induction s as [|c t IH]; intros n; simpl.
  - destruct (emit_dashes_cases n) as [-> | ->]; reflexivity.
  - destruct (c =? dash) eqn:Hc; [apply IH|].
    assert (Hct : no_double_dash (c :: sub_dash_runs 0 t) = true)
      by (rewrite no_double_dash_cons, Hc, IH; reflexivity).
    destruct (emit_dashes_cases n) as [-> | ->]; [exact Hct|].
    change ([dash] ++ c :: sub_dash_runs 0 t) with (dash :: c :: sub_dash_runs 0 t).
    rewrite no_double_dash_cons; unfold head_not_dash; rewrite Hc; exact Hct.
Qed.

Lemma lstrip_by_app (p : N -> bool) (a b : pystr) :
  lstrip_by p (a ++ b) =
  match lstrip_by p a with [] => lstrip_by p b | l => l ++ b end.
Proof.
  induction a as [|c a IH]; simpl; [reflexivity|].
  destruct (p c); [exact IH|reflexivity].
Qed.

Lemma lstrip_by_all (p : N -> bool) (w s : pystr) :
  forallb p w = true -> lstrip_by p (w ++ s) = lstrip_by p s.
Proof.
  induction w as [|c w IH]; simpl; [reflexivity|].
  intros H; apply andb_true_iff in H as [-> H]; apply IH, H.
Qed.

Lemma lstrip_by_head (p : N -> bool) (s : pystr) :
  match lstrip_by p s with c :: _ => p c = false | [] => True end.
Proof.
  induction s as [|c s IH]; simpl; [exact I|].
  destruct (p c) eqn:E; [exact IH|exact E].
Qed.

Lemma lstrip_by_snoc (p : N -> bool) (a : pystr) (z : N) :
  p z = false -> lstrip_by p (a ++ [z]) = lstrip_by p a ++ [z].
Proof.
  intros Hz; rewrite lstrip_by_app.
  destruct (lstrip_by p a); simpl; [rewrite Hz|]; reflexivity.
Qed.

(** [strip_by p] yields a string whose first code point fails [p]. *)
Lemma strip_by_head (p : N -> bool) (s : pystr) :
  match strip_by p s with c :: _ => p c = false | [] => True end.
Proof.
  unfold strip_by.
  pose proof (lstrip_by_head p s) as H.
  destruct (lstrip_by p s) as [|z l]; simpl; [exact I|].
  rewrite (lstrip_by_snoc p (rev l) z H), rev_app_distr; exact H.
Qed.

Lemma no_double_dash_false (s : pystr) :
  no_double_dash s = false <-> exists a b, s = a ++ dash :: dash :: b.
Proof.
  induction s as [|c t IH].
  - simpl; split; [discriminate|]; intros (a & b & H).
    destruct a; discriminate.
  - rewrite no_double_dash_cons; split.
    + intros H; apply andb_false_iff in H as [H | H].
      * apply negb_false_iff, andb_true_iff in H as [Hc Ht].
        apply N.eqb_eq in Hc; subst c.
        destruct t as [|d t]; simpl in Ht; [discriminate|].
        apply negb_true_iff, negb_false_iff, N.eqb_eq in Ht; subst d.
        exists [], t; reflexivity.
      * apply IH in H as (a & b & ->); exists (c :: a), b; reflexivity.
    + intros ([|c' a] & b & H); simpl in H; injection H as H1 H2; subst.
      * reflexivity.
      * assert (Ht : no_double_dash (a ++ dash :: dash :: b) = false)
          by (apply IH; eauto).
        rewrite Ht, andb_false_r; reflexivity.
Qed.

Lemma no_double_dash_infix (x s y : pystr) :
  no_double_dash (x ++ s ++ y) = true -> no_double_dash s = true.
Proof.
  intros H; destruct (no_double_dash s) eqn:E; [reflexivity|].
  apply no_double_dash_false in E as (a & b & ->).
  assert (Hf : no_double_dash (x ++ (a ++ dash :: dash :: b) ++ y) = false).
  { apply no_double_dash_false; exists (x ++ a), (b ++ y).
    rewrite <- !app_assoc; reflexivity. }
  congruence.
Qed.

Lemma no_double_dash_rev (s : pystr) :
  no_double_dash s = true -> no_double_dash (rev s) = true.
Proof.
  intros H; destruct (no_double_dash (rev s)) eqn:E; [reflexivity|].
  apply no_double_dash_false in E as (a & b & E).
  assert (Hs : s = rev b ++ dash :: dash :: rev a).
  { rewrite <- (rev_involutive s), E, rev_app_distr; simpl.
    rewrite <- !app_assoc; reflexivity. }
  assert (Hf : no_double_dash s = false)
    by (apply no_double_dash_false; eauto).
  congruence.
Qed.

Lemma lstrip_by_suffix (p : N -> bool) (s : pystr) :
  exists a, s = a ++ lstrip_by p s.
Proof.
  induction s as [|c s IH]; simpl; [exists []; reflexivity|].
  destruct (p c); [destruct IH as [a Ha]; exists (c :: a); simpl; congruence|].
  exists []; reflexivity.
Qed.

Lemma no_double_dash_strip (p : N -> bool) (s : pystr) :
  no_double_dash s = true -> no_double_dash (strip_by p s) = true.
Proof.
  intros H; unfold strip_by; apply no_double_dash_rev.
  destruct (lstrip_by_suffix p s) as [a Ha].
  assert (H1 : no_double_dash (lstrip_by p s) = true).
  { apply (no_double_dash_infix a _ []); rewrite app_nil_r, <- Ha; exact H. }
  apply no_double_dash_rev in H1.
  destruct (lstrip_by_suffix p (rev (lstrip_by p s))) as [b Hb].
  apply (no_double_dash_infix b _ []); rewrite app_nil_r, <- Hb; exact H1.
Qed.

Lemma no_double_dash_firstn (n : nat) (s : pystr) :
  no_double_dash s = true -> no_double_dash (firstn n s) = true.
Proof.
  intros H; apply (no_double_dash_infix [] _ (skipn n s)).
  simpl; rewrite firstn_skipn; exact H.
Qed.

Lemma head_not_dash_firstn (n : nat) (s : pystr) :
  head_not_dash s = true -> head_not_dash (firstn n s) = true.
Proof. destruct n, s; simpl; auto. Qed.

Lemma sanitize_username_hyphens_aux (py_lower : pystr -> pystr) (s : pystr) :
  head_not_dash (sanitize_username py_lower s) = true /\
  no_double_dash (sanitize_username py_lower s) = true.
Proof.
  unfold sanitize_username, sanitize_username_len.
  set (r := strip_by (N.eqb dash) (sub_dash_runs 0 (sub_disallowed false
              (py_lower (py_strip s))))).
  assert (Hh : head_not_dash r = true).
  { pose proof (strip_by_head (N.eqb dash) (sub_dash_runs 0 (sub_disallowed false
                  (py_lower (py_strip s))))) as H; fold r in H.
    destruct r as [|c r']; [reflexivity|].
    unfold head_not_dash; rewrite N.eqb_sym, H; reflexivity. }
  assert (Hd : no_double_dash r = true)
    by (apply no_double_dash_strip, sub_dash_runs_no_double).
  pose proof (head_not_dash_firstn 64 r Hh) as H1.
  pose proof (no_double_dash_firstn 64 r Hd) as H2.
  destruct (firstn 64 r); [split; reflexivity|split; assumption].
Qed.

(** The name [sanitize_username] returns never starts with a hyphen and
    never holds two consecutive hyphens. *)
Theorem sanitize_username_hyphens (py_lower : pystr -> pystr) (s : pystr) :
  head_not_dash (sanitize_username py_lower s) = true /\
  no_double_dash (sanitize_username py_lower s) = true.
Proof. apply sanitize_username_hyphens_aux. Qed.

Lemma sanitize_username_class (py_lower : pystr -> pystr) (s : pystr) :
  matches_safe_name (sanitize_username py_lower s) = true.
Proof.
  unfold sanitize_username, sanitize_username_len, matches_safe_name.
  set (r := strip_by (N.eqb dash) (sub_dash_runs 0 (sub_disallowed false
              (py_lower (py_strip s))))).
  assert (Hr : forallb in_class r = true).
  { apply strip_by_forallb, sub_dash_runs_class, sub_disallowed_class. }
  pose proof (firstn_forallb in_class 64 r Hr) as Hf.
  pose proof (firstn_le_length 64 r) as Hl.
  destruct (firstn 64 r) as [|c t] eqn:E; [reflexivity|].
  rewrite Hf, andb_true_r; apply andb_true_iff; split;
    apply Nat.leb_le; simpl in *; lia.
Qed.

Lemma in_class_range (c : N) : in_class c = true -> 45 <= c <= 122.
Proof.
  unfold in_class, dash; intros H.
  repeat (apply orb_true_iff in H as [H | H]);
    try (apply andb_true_iff in H as [H1 H2]; apply N.leb_le in H1, H2; lia);
    apply N.eqb_eq in H; lia.
Qed.

Lemma in_class_not_space (c : N) : in_class c = true -> py_isspace c = false.
Proof.
  intros H; apply in_class_range in H; unfold py_isspace.
  repeat (apply orb_false_iff; split);
    try (apply andb_false_iff;
         first [left; apply N.leb_gt; lia | right; apply N.leb_gt; lia]);
    apply N.eqb_neq; lia.
Qed.

Lemma strip_by_id (p : N -> bool) (s : pystr) :
  match s with c :: _ => p c = false | [] => True end ->
  match rev s with c :: _ => p c = false | [] => True end ->
  strip_by p s = s.
Proof.
  intros H1 H2; unfold strip_by.
  assert (E1 : lstrip_by p s = s) by (destruct s; simpl; [|rewrite H1]; reflexivity).
  rewrite E1.
  assert (E2 : lstrip_by p (rev s) = rev s)
    by (destruct (rev s); simpl; [|rewrite H2]; reflexivity).
  rewrite E2, rev_involutive; reflexivity.
Qed.

Lemma sub_disallowed_id (s : pystr) :
  forallb in_class s = true -> sub_disallowed false s = s.
Proof.
  induction s as [|c t IH]; simpl; [reflexivity|]; intros H.
  apply andb_true_iff in H as [-> H]; simpl; rewrite IH; auto.
Qed.

Lemma sub_dash_runs_id (s : pystr) :
  (no_double_dash s = true -> sub_dash_runs 0 s = s) /\
  (no_double_dash (dash :: s) = true -> sub_dash_runs 1 s = dash :: s).
Proof.
  induction s as [|c t [IH0 IH1]]; [split; reflexivity|].
  rewrite !no_double_dash_cons; split; intros H.
  - simpl; destruct (c =? dash) eqn:Hc.
    + apply N.eqb_eq in Hc; subst c; apply IH1.
      rewrite no_double_dash_cons; exact H.
    + apply andb_true_iff in H as [_ H]; simpl; rewrite IH0; auto.
  - apply andb_true_iff in H as [Hh H].
    apply andb_true_iff in H as [_ H].
    unfold head_not_dash in Hh; simpl in Hh.
    destruct (c =? dash) eqn:Hc; [discriminate|].
    simpl; rewrite Hc; simpl; rewrite IH0; auto.
Qed.

Lemma head_not_dash_eqb (s : pystr) :
  head_not_dash s = true ->
  match s with c :: _ => N.eqb dash c = false | [] => True end.
Proof.
  destruct s as [|c s]; [intros; exact I|]; intros H.
  unfold head_not_dash in H; rewrite N.eqb_sym; apply negb_true_iff; exact H.
Qed.

Lemma forallb_not_space (s : pystr) :
  forallb in_class s = true ->
  match s with c :: _ => py_isspace c = false | [] => True end.
Proof.
  destruct s as [|c s]; simpl; [auto|]; intros H.
  apply andb_true_iff in H as [H _]; apply in_class_not_space, H.
Qed.

Lemma sanitize_username_fixed_aux (py_lower : pystr -> pystr) (s : pystr)
  (Hl : py_lower s = s) (Hs : sanitized_fixed s = true) :
  sanitize_username py_lower s = s.
Proof.
  unfold sanitized_fixed, matches_safe_name in Hs.
  apply andb_true_iff in Hs as [Hs Hlast].
  apply andb_true_iff in Hs as [Hs Hhead].
  apply andb_true_iff in Hs as [Hs Hdd].
  apply andb_true_iff in Hs as [Hs Hcl].
  apply andb_true_iff in Hs as [Hlen1 Hlen2].
  apply Nat.leb_le in Hlen1, Hlen2.
  unfold sanitize_username, sanitize_username_len, py_strip.
  rewrite (strip_by_id py_isspace s);
    [| apply forallb_not_space, Hcl
     | apply forallb_not_space; rewrite forallb_rev; exact Hcl].
  rewrite Hl, sub_disallowed_id, (proj1 (sub_dash_runs_id s)) by assumption.
  rewrite strip_by_id;
    [| apply head_not_dash_eqb, Hhead | apply head_not_dash_eqb, Hlast].
  rewrite firstn_all2 by lia.
  destruct s; [simpl in Hlen1; lia | reflexivity].
Qed.

(** A name that already has the shape of a sanitized one (it matches
    [^[a-z0-9_-]{1,64}$], has no ["--"] and neither starts nor ends with
    ["-"]) is returned unchanged, given that lowercasing leaves it as it
    is. *)
Theorem sanitize_username_fixed (py_lower : pystr -> pystr) (s : pystr)
  (Hl : py_lower s = s) (Hs : sanitized_fixed s = true) :
  sanitize_username py_lower s = s.
Proof. apply sanitize_username_fixed_aux; assumption. Qed.

Lemma sanitize_username_fixed_witness :
  sanitize_username ascii_lower (u "alice_01-x") = u "alice_01-x".
Proof. apply sanitize_username_fixed; reflexivity. Defined.

Lemma ascii_lower_class (t : pystr) :
  forallb in_class t = true -> ascii_lower t = t.
Proof.
  induction t as [|c t IH]; simpl; [reflexivity|]; intros H.
  apply andb_true_iff in H as [Hc H].
  rewrite IH by exact H.
  replace ((65 <=? c) && (c <=? 90)) with false; [reflexivity|].
  symmetry; apply andb_false_iff.
  unfold in_class, dash in Hc.
  repeat (apply orb_true_iff in Hc as [Hc | Hc]);
    try (apply andb_true_iff in Hc as [H1 H2]; apply N.leb_le in H1, H2);
    try apply N.eqb_eq in Hc;
    first [left; apply N.leb_gt; lia | right; apply N.leb_gt; lia].
Qed.

(** Sanitizing twice gives the result of sanitizing once whenever that
    result does not end with a hyphen (which only the 64-character cut can
    leave), given a lowercasing that leaves [[a-z0-9_-]] strings as they
    are. *)
Theorem sanitize_username_idempotent_no_trailing_hyphen
  (py_lower : pystr -> pystr)
  (Hlow : forall t, forallb in_class t = true -> py_lower t = t) (s : pystr)
  (Htrail : head_not_dash (rev (sanitize_username py_lower s)) = true) :
  sanitize_username py_lower (sanitize_username py_lower s)
  = sanitize_username py_lower s.
Proof.
  pose proof (sanitize_username_class py_lower s) as Hm.
  destruct (sanitize_username_hyphens_aux py_lower s) as [Hh Hd].
  apply sanitize_username_fixed_aux.
  - apply Hlow; unfold matches_safe_name in Hm.
    apply andb_true_iff in Hm as [_ Hm]; exact Hm.
  - unfold sanitized_fixed; rewrite Hm, Hd, Hh, Htrail; reflexivity.
Qed.

Lemma sanitize_username_idempotent_no_trailing_hyphen_witness :
  sanitize_username ascii_lower (sanitize_username ascii_lower (u " Bob Smith!"))
  = sanitize_username ascii_lower (u " Bob Smith!").
Proof.
  apply sanitize_username_idempotent_no_trailing_hyphen;
    [exact ascii_lower_class | reflexivity].
Defined.

Lemma py_strip_surrounding (w1 s w2 : pystr)
  (H1 : forallb py_isspace w1 = true) (H2 : forallb py_isspace w2 = true) :
  py_strip (w1 ++ s ++ w2) = py_strip s.
Proof.
  unfold py_strip, strip_by.
  rewrite lstrip_by_all by exact H1.
  rewrite lstrip_by_app.
  destruct (lstrip_by py_isspace s) as [|c l] eqn:E.
  - pose proof (lstrip_by_all py_isspace w2 [] H2) as H.
    rewrite app_nil_r in H; rewrite H; reflexivity.
  - rewrite rev_app_distr, lstrip_by_all by (rewrite forallb_rev; exact H2).
    reflexivity.
Qed.

(** Whitespace around a username does not change its sanitized name. *)
Theorem sanitize_username_surrounding_space (py_lower : pystr -> pystr)
  (w1 s w2 : pystr)
  (H1 : forallb py_isspace w1 = true) (H2 : forallb py_isspace w2 = true) :
  sanitize_username py_lower (w1 ++ s ++ w2) = sanitize_username py_lower s.
Proof.
  unfold sanitize_username, sanitize_username_len.
  rewrite py_strip_surrounding by assumption; reflexivity.
Qed.

Lemma sanitize_username_surrounding_space_witness :
  sanitize_username ascii_lower (u " " ++ u "Alice" ++ [9; 12288])
  = sanitize_username ascii_lower (u "Alice").
Proof. apply sanitize_username_surrounding_space; reflexivity. Defined.

(* ------------------------------------------------------------------ *)
(** ** Paths of a spec and the files [generate_ogg] touches *)

Lemma path_join_inj (dir x y : pystr) :
  startswith x (u "/") = false -> startswith y (u "/") = false ->
  path_join dir x = path_join dir y -> x = y.
Proof.
  unfold path_join; intros Hx Hy; rewrite Hx, Hy.
  destruct (rev dir) as [|c _]; [auto|].
  destruct (c =? 47); intros H; apply app_inv_head in H; auto.
  simpl in H; injection H; auto.
Qed.

Lemma uuid_shape_head (c : N) (t : pystr) :
  uuid_shape (c :: t) = true -> is_hex_lower c = true.
Proof.
  unfold uuid_shape; intros H.
  apply andb_true_iff in H as [_ H]; simpl in H.
  apply andb_true_iff in H as [H _]; exact H.
Qed.

Lemma audio_spec_paths_distinct_aux (py_lower : pystr -> pystr) (spec : AudioSpec)
  (Hu : uuid_shape (uuid_ spec) = true) :
  tmp_wav_path spec <> ogg_path py_lower spec /\
  tmp_mp3_path spec <> ogg_path py_lower spec /\
  tmp_wav_path spec <> tmp_mp3_path spec.
Proof.
  unfold tmp_wav_path, tmp_mp3_path, ogg_path, filename.
  destruct (uuid_ spec) as [|c t] eqn:E; [discriminate|].
  apply uuid_shape_head in Hu.
  assert (Hc : c <> 46).
  { intros ->; discriminate. }
  assert (Hs : forall x, startswith (c :: x) (u "/") = false).
  { intros x.
    change (startswith (c :: x) (u "/")) with ((47 =? c) && startswith x []).
    destruct (N.eqb_spec 47 c); [subst; discriminate | reflexivity]. }
  repeat split; intros H; apply path_join_inj in H; try reflexivity;
    try apply Hs; simpl in H; try (injection H; intros; congruence).
  repeat injection H as H.
  apply app_inv_head in H; discriminate.
Qed.

(** For a uuid-shaped token, the temporary WAV, the temporary MP3 and the
    ogg file of a spec are three different paths: the cleanup of a
    temporary file never removes the produced ogg file. *)
Theorem audio_spec_paths_distinct (py_lower : pystr -> pystr) (spec : AudioSpec)
  (Hu : uuid_shape (uuid_ spec) = true) :
  tmp_wav_path spec <> ogg_path py_lower spec /\
  tmp_mp3_path spec <> ogg_path py_lower spec /\
  tmp_wav_path spec <> tmp_mp3_path spec.
Proof. apply audio_spec_paths_distinct_aux, Hu. Qed.

Lemma audio_spec_paths_distinct_witness :
  tmp_wav_path spec0 <> ogg_path ascii_lower spec0.
Proof. apply (audio_spec_paths_distinct ascii_lower spec0); reflexivity. Defined.

Lemma fs_exists_add (p q : pystr) (fs : list pystr) :
  fs_exists q (fs_add p fs) = pystr_eqb q p || fs_exists q fs.
Proof.
  unfold fs_add; destruct (fs_exists p fs) eqn:E; simpl; [|reflexivity].
  destruct (pystr_eqb q p) eqn:Eq; simpl; [|reflexivity].
  apply pystr_eqb_eq in Eq; subst; exact E.
Qed.

Lemma fs_exists_remove_other (p q : pystr) (fs : list pystr) :
  q <> p -> fs_exists q (fs_remove p fs) = fs_exists q fs.
Proof.
  intros Hne; induction fs as [|r fs IH]; simpl; [reflexivity|].
  destruct (pystr_eqb p r) eqn:E; simpl; rewrite IH; [|reflexivity].
  apply pystr_eqb_eq in E; subst.
  destruct (pystr_eqb q r) eqn:E'; [apply pystr_eqb_eq in E'; congruence|reflexivity].
Qed.

Lemma pystr_eqb_refl_aux (a : pystr) : pystr_eqb a a = true.
Proof. apply pystr_eqb_eq; reflexivity. Qed.

Lemma pystr_eqb_neq (a b : pystr) : a <> b -> pystr_eqb a b = false.
Proof.
  intros H; destruct (pystr_eqb a b) eqn:E; [apply pystr_eqb_eq in E; congruence|reflexivity].
Qed.

(** Whatever synthesis, transcoding and removal do, [generate_ogg] creates
    or deletes no file other than the spec's intermediate file and its ogg
    file. *)
Theorem generate_ogg_frame (py_lower : pystr -> pystr) (k : engine_kind)
  (synth : synth_outcome) (transcode remove : step_outcome)
  (spec : AudioSpec) (fs : list pystr) (q : pystr)
  (Htmp : q <> tmp_source_path k spec) (Hogg : q <> ogg_path py_lower spec) :
  fs_exists q (fst (fst (generate_ogg py_lower k synth transcode remove spec fs)))
  = fs_exists q fs.
Proof.
  pose proof (pystr_eqb_neq _ _ Htmp) as Ht.
  pose proof (pystr_eqb_neq _ _ Hogg) as Ho.
  unfold generate_ogg.
  destruct synth; simpl; [|reflexivity|rewrite fs_exists_add, Ht; reflexivity].
  destruct transcode; simpl;
    match goal with
    | |- fs_exists q (if fs_exists ?p ?X then _ else _) = _ =>
        destruct (fs_exists p X); [destruct remove|]
    end;
    try rewrite fs_exists_remove_other by assumption;
    rewrite ?fs_exists_add, ?Ht, ?Ho; reflexivity.
Qed.

Lemma generate_ogg_frame_witness :
  fs_exists (u "/srv/app/static/audio/other.ogg")
    (fst (fst (generate_ogg ascii_lower (PyTTSX3Generator [] None) SynthOk StepOk
                 StepOk spec0 [u "/srv/app/static/audio/other.ogg"]))) = true.
Proof.
  rewrite generate_ogg_frame; [reflexivity| |]; vm_compute; congruence.
Defined.

(** When synthesis, transcoding and removal all succeed, [generate_ogg]
    returns the spec's ogg path, that file exists afterwards and the
    intermediate file does not (for a uuid-shaped token). *)
Theorem generate_ogg_success (py_lower : pystr -> pystr) (k : engine_kind)
  (spec : AudioSpec) (fs : list pystr) (Hu : uuid_shape (uuid_ spec) = true) :
  let '(fs', r, printed) := generate_ogg py_lower k SynthOk StepOk StepOk spec fs in
  r = Ok (ogg_path py_lower spec) /\
  fs_exists (ogg_path py_lower spec) fs' = true /\
  fs_exists (tmp_source_path k spec) fs' = false.
Proof.
  destruct (audio_spec_paths_distinct_aux py_lower spec Hu) as (H1 & H2 & _).
  assert (Hne : tmp_source_path k spec <> ogg_path py_lower spec)
    by (destruct k; assumption).
  pose proof (pystr_eqb_neq _ _ Hne) as Hb.
  pose proof (pystr_eqb_neq _ _ (not_eq_sym Hne)) as Hb'.
  unfold generate_ogg; cbv beta iota zeta.
  rewrite fs_exists_add, fs_exists_add, pystr_eqb_refl_aux, orb_true_r.
  rewrite fs_exists_remove, fs_exists_remove_other by exact (not_eq_sym Hne).
  rewrite fs_exists_add, pystr_eqb_refl_aux; repeat split.
Qed.

Lemma generate_ogg_success_witness :
  fs_exists (ogg_path ascii_lower spec0)
    (fst (fst (generate_ogg ascii_lower (GTTSGenerator (u "en") (u "com")) SynthOk
                 StepOk StepOk spec0 []))) = true.
Proof.
  pose proof (generate_ogg_success ascii_lower (GTTSGenerator (u "en") (u "com"))
                spec0 [] eq_refl) as H.
  destruct (generate_ogg _ _ _ _ _ _ _) as [[fs r] printed]; simpl.
  destruct H as (_ & H & _); exact H.
Defined.

(* ------------------------------------------------------------------ *)
(** ** [list_voices] and voice selection *)

Lemma in_combine_seq_nth (l : list Voice) (k i : nat) (v : Voice) :
  In (i, v) (combine (seq k (length l)) l) ->
  (k <= i)%nat /\ nth_error l (i - k) = Some v.
Proof.
  revert k; induction l as [|x l IH]; simpl; intros k H; [contradiction|].
  destruct H as [H | H].
  - injection H as <- <-; rewrite Nat.sub_diag; split; [lia | reflexivity].
  - destruct (IH (S k) H) as [Hle Hn]; split; [lia|].
    replace (i - k)%nat with (S (i - S k)) by lia; exact Hn.
Qed.

(** Every entry [(i, v)] that [PyTTSX3Generator.list_voices] reports is a
    working [PYTTSX3_VOICE_INDEX]: passing [i] as [voice_index] makes the
    constructor select that voice's id, whatever the substring preference
    (provided the id is non-empty). *)
Theorem list_voices_index_selects (py_lower : pystr -> pystr)
  (voices : list Voice) (prefer : pystr) (i : nat) (v : Voice)
  (Hin : In (i, v) (list_voices voices)) (Hid : truthy (v_id v) = true) :
  fst (select_voice py_lower voices prefer (Some (Z.of_nat i))) = Some (v_id v).
Proof.
  destruct (in_combine_seq_nth voices 0 i v Hin) as [_ Hn].
  rewrite Nat.sub_0_r in Hn.
  assert (Hl : (i < length voices)%nat) by (apply nth_error_Some; congruence).
  unfold select_voice.
  assert (Hr : ((0 <=? Z.of_nat i)%Z && (Z.of_nat i <? Z.of_nat (length voices))%Z) = true)
    by (apply andb_true_iff; split; [apply Z.leb_le | apply Z.ltb_lt]; lia).
  rewrite Hr, Nat2Z.id, Hn; simpl; rewrite Hid; reflexivity.
Qed.

Lemma list_voices_index_selects_witness :
  In (2%nat, {| v_id := u "fr-fr"; v_name := Some (u "French (France)") |})
     (list_voices voices0) /\
  fst (select_voice ascii_lower voices0 (u "english") (Some 2%Z)) = Some (u "fr-fr").
Proof.
  split; [simpl; tauto|].
  exact (list_voices_index_selects ascii_lower voices0 (u "english") 2
           {| v_id := u "fr-fr"; v_name := Some (u "French (France)") |}
           ltac:(simpl; tauto) eq_refl).
Defined.

(* ------------------------------------------------------------------ *)
(** ** [get_voice_gender] *)

Lemma startswith_spec (s pre : pystr) :
  startswith s pre = true <-> exists q, s = pre ++ q.
Proof.
  revert s; induction pre as [|p pre IH]; intros s; simpl.
  - split; [intros _; exists s; reflexivity | intros _; destruct s; reflexivity].
  - destruct s as [|c s].
    + split; [discriminate | intros [q Hq]; discriminate].
    + change (((p =? c) && startswith s pre) = true <-> exists q, c :: s = (p :: pre) ++ q).
      rewrite andb_true_iff, N.eqb_eq, IH; split.
      * intros [-> [q ->]]; exists q; reflexivity.
      * intros [q Hq]; injection Hq as -> ->; split; [reflexivity | exists q; reflexivity].
Qed.

Lemma contains_spec (hay n : pystr) :
  contains hay n = true <-> exists p q, hay = p ++ n ++ q.
Proof.
  induction hay as [|c hay IH]; cbn [contains]; rewrite orb_true_iff, startswith_spec.
  - split.
    + intros [[q Hq] | H]; [exists [], q; exact Hq | discriminate].
    + intros [p [q Hq]]; left; exists q.
      destruct p; [exact Hq | discriminate].
  - rewrite IH; split.
    + intros [[q Hq] | [p [q Hq]]]; [exists [], q; exact Hq|].
      exists (c :: p), q; rewrite Hq; reflexivity.
    + intros [p [q Hq]]; destruct p as [|d p].
      * left; exists q; exact Hq.
      * right; injection Hq as -> Hq; exists p, q; exact Hq.
Qed.

Lemma contains_app_r (hay a b : pystr) :
  contains hay (a ++ b) = true -> contains hay b = true.
Proof.
  rewrite !contains_spec; intros [p [q Hq]]; exists (p ++ a), q.
  rewrite Hq, <- !app_assoc; reflexivity.
Qed.

(** Without gender metadata, [get_voice_gender] answers ["Female"] only for
    an id containing ["+f"]: a name containing ["female"] also contains
    ["male"], which is tested first, so such a voice is reported
    ["Male"]. *)
Theorem get_voice_gender_female_name_is_male (py_lower : pystr -> pystr)
  (gender : option pystr) (v : Voice) (name : pystr)
  (Hg : truthy (opt_str gender) = false) (Hn : v_name v = Some name) :
  (get_voice_gender py_lower gender v = Ok (Some (u "Female")) ->
   contains (py_lower (v_id v)) (u "+f") = true) /\
  (contains (py_lower name) (u "female") = true ->
   get_voice_gender py_lower gender v = Ok (Some (u "Male"))).
Proof.
  assert (Hfm : forall h, contains h (u "female") = true -> contains h (u "male") = true)
    by (intros h; exact (contains_app_r h (u "fe") (u "male"))).
  unfold get_voice_gender; rewrite Hg, Hn; split.
  - destruct (contains (py_lower (v_id v)) (u "+m") || contains (py_lower name) (u "male"))
      eqn:Hm; [discriminate|].
    apply orb_false_iff in Hm as [_ Hm].
    destruct (contains (py_lower (v_id v)) (u "+f")) eqn:Hf; [reflexivity|].
    destruct (contains (py_lower name) (u "female")) eqn:Hfe; [|discriminate].
    rewrite (Hfm _ Hfe) in Hm; discriminate.
  - intros Hfe; rewrite (Hfm _ Hfe), orb_true_r; reflexivity.
Qed.

Lemma get_voice_gender_female_name_is_male_witness :
  get_voice_gender ascii_lower None
    {| v_id := u "english"; v_name := Some (u "Female Voice") |} = Ok (Some (u "Male")).
Proof.
  exact (proj2 (get_voice_gender_female_name_is_male ascii_lower None
                  {| v_id := u "english"; v_name := Some (u "Female Voice") |}
                  (u "Female Voice") eq_refl eq_refl) eq_refl).
Defined.



(* ------------------------------------------------------------------ *)
(** ** [create_app] *)

Lemma path_join_suffix (a b : pystr) : exists p, path_join a b = p ++ b.
Proof.
  unfold path_join; destruct (startswith b (u "/")); [exists []; reflexivity|].
  destruct (rev a) as [|c r]; [exists []; reflexivity|].
  destruct (c =? 47); [exists a; reflexivity | exists (a ++ u "/"); rewrite <- app_assoc; reflexivity].
Qed.

Lemma static_audio_dir (root : pystr) :
  path_join (path_join root (u "static")) (u "audio") =
  path_join root (u "static") ++ u "/audio".
Proof.
  destruct (path_join_suffix root (u "static")) as [p Hp]; rewrite Hp.
  unfold path_join at 1.
  change (startswith (u "audio") (u "/")) with false; cbv iota.
  rewrite rev_app_distr; change (rev (u "static")) with (99 :: u "itats"); cbv iota.
  change (99 =? 47) with false; cbv iota.
  rewrite <- app_assoc; reflexivity.
Qed.



(** With [engine_name="gtts"], a request asking for [engine=pyttsx3] is
    answered by the shared service, whose engine is the default
    [GTTSGenerator]: the handler reports ["pyttsx3"] while the audio is made
    with gTTS (the [elif] branch only [pass]es). *)
Theorem create_app_gtts_default_pyttsx3_request (pyttsx3_init_ok gtts_now : bool)
  (root ext voice : pystr) (idx : option Z) (lang tld : pystr) (app : App)
  (req_lang req_tld : option pystr)
  (H : create_app true pyttsx3_init_ok root ext (u "gtts") voice idx lang tld = Ok app) :
  select_service gtts_now app (Some (u "pyttsx3")) req_lang req_tld
    = (Ok (u "pyttsx3", service app), next_id app) /\
  eng_kind (svc_tts (service app)) = GTTSGenerator lang tld.
Proof.
  unfold create_app in H; simpl in H; injection H as <-.
  split; reflexivity.
Qed.

Lemma create_app_gtts_default_pyttsx3_request_witness :
  match create_app true true (u "/srv/app") [] (u "gtts") [] None (u "de") (u "de") with
  | Ok app => select_service true app (Some (u "pyttsx3")) None None
                = (Ok (u "pyttsx3", service app), next_id app) /\
              eng_kind (svc_tts (service app)) = GTTSGenerator (u "de") (u "de")
  | Raise _ => False
  end.
Proof.
  destruct (create_app true true (u "/srv/app") [] (u "gtts") [] None (u "de") (u "de"))
    as [app|e] eqn:Happ.
  - exact (create_app_gtts_default_pyttsx3_request true true (u "/srv/app") [] []
             None (u "de") (u "de") app None None Happ).
  - discriminate.
Defined.

(* ------------------------------------------------------------------ *)
(** ** [build_file_url] and the base-URL override *)

Lemma is_valid_base_url_truthy (py_lower : pystr -> pystr) (b : pystr) :
  is_valid_base_url py_lower b = true -> truthy b = true.
Proof. unfold is_valid_base_url; destruct (truthy b); [reflexivity | discriminate]. Qed.

Lemma lstrip_slash_head (s : pystr) : hd_error (lstrip_slash s) <> Some 47.
Proof.
  pose proof (lstrip_by_head (N.eqb 47) s) as H; unfold lstrip_slash.
  destruct (lstrip_by (N.eqb 47) s) as [|c t]; simpl; [discriminate|].
  intros E; injection E as ->; discriminate.
Qed.

(** With a valid override, the URL is [urljoin] of the override with its
    trailing slashes replaced by exactly one, and of the relative path
    [static/<rel>] with every leading slash of [rel] removed: the base ends
    in one ["/"] and the path starts with no ["/"], so [urljoin] keeps the
    override's host and path prefix. *)
Theorem build_file_url_valid_override (py_lower : pystr -> pystr) (rel b : pystr)
  (Hb : is_valid_base_url py_lower b = true) :
  build_file_url py_lower rel (Some b) =
    UrlJoin (rstrip_slash b ++ u "/") (u "static/" ++ lstrip_slash rel) /\
  hd_error (rev (rstrip_slash b)) <> Some 47 /\
  hd_error (lstrip_slash rel) <> Some 47.
Proof.
  split; [|split].
  - unfold build_file_url; rewrite (is_valid_base_url_truthy _ _ Hb), Hb; reflexivity.
  - unfold rstrip_slash; rewrite rev_involutive; apply lstrip_slash_head.
  - apply lstrip_slash_head.
Qed.

Lemma build_file_url_valid_override_witness :
  build_file_url ascii_lower (u "//audio/x.ogg") (Some (u "https://h.example//")) =
    UrlJoin (u "https://h.example/") (u "static/audio/x.ogg").
Proof.
  exact (proj1 (build_file_url_valid_override ascii_lower (u "//audio/x.ogg")
                  (u "https://h.example//") eq_refl)).
Defined.



Lemma py_strip_all_space (s : pystr) : forallb py_isspace s = true -> py_strip s = [].
Proof.
  intros H; unfold py_strip, strip_by.
  rewrite <- (app_nil_r s), (lstrip_by_all _ _ _ H); reflexivity.
Qed.

(** A [base_url] argument made only of whitespace is the same as none: it
    is stripped to the empty string, so the configured default (or Flask's
    URL) decides. *)
Theorem resolve_file_url_blank_request_base (py_lower : pystr -> pystr)
  (q : option pystr) (ext rel : pystr)
  (Hq : forallb py_isspace (opt_str q) = true) :
  resolve_file_url py_lower q ext rel = resolve_file_url py_lower None ext rel.
Proof.
  unfold resolve_file_url.
  replace (py_strip (match q with Some b => b | None => [] end)) with (@nil N);
    [reflexivity|].
  symmetry; apply py_strip_all_space; destruct q; exact Hq.
Qed.

Lemma resolve_file_url_blank_request_base_witness :
  resolve_file_url ascii_lower (Some [32; 9; 32]) (u "https://cdn.example.com") (u "audio/a.ogg")
  = UrlJoin (u "https://cdn.example.com/") (u "static/audio/a.ogg").
Proof.
  rewrite (resolve_file_url_blank_request_base ascii_lower (Some [32; 9; 32])
             (u "https://cdn.example.com") (u "audio/a.ogg") eq_refl).
  reflexivity.
Defined.

(* ------------------------------------------------------------------ *)
(** ** The URL [tts_endpoint] answers *)

Lemma forallb_combine_seq (f : nat -> N -> bool) (g : N -> bool) (s : pystr) (k : nat) :
  (forall i c, f i c = true -> g c = true) ->
  forallb (fun '(i, c) => f i c) (combine (seq k (length s)) s) = true ->
  forallb g s = true.
Proof.
  intros Hfg; revert k; induction s as [|c s IH]; simpl; intros k H; [reflexivity|].
  apply andb_true_iff in H as [H1 H2].
  rewrite (Hfg _ _ H1); exact (IH _ H2).
Qed.

Lemma uuid_shape_no_backslash (s : pystr) :
  uuid_shape s = true -> forallb not_backslash s = true.
Proof.
  unfold uuid_shape; intros H; apply andb_true_iff in H as [_ H].
  refine (forallb_combine_seq _ _ s 0 _ H).
  intros i c; unfold not_backslash, is_hex_lower, dash.
  destruct (existsb (Nat.eqb i) [8; 13; 18; 23]%nat); intros Hc.
  - apply N.eqb_eq in Hc; subst; reflexivity.
  - apply negb_true_iff, N.eqb_neq; intros ->; discriminate.
Qed.

Lemma in_class_no_backslash (s : pystr) :
  forallb in_class s = true -> forallb not_backslash s = true.
Proof.
  intros H; apply forallb_forall; intros c Hc.
  pose proof (proj1 (forallb_forall _ _) H c Hc) as Hk.
  unfold not_backslash; apply negb_true_iff, N.eqb_neq; intros ->; discriminate.
Qed.

Lemma is_action_cases (a : pystr) : is_action a = true -> a = u "join" \/ a = u "leave".
Proof.
  unfold is_action; intros H; apply orb_true_iff in H as [H | H];
    apply pystr_eqb_eq in H; auto.
Qed.

Lemma filename_no_backslash (py_lower : pystr -> pystr) (spec : AudioSpec)
  (Hu : uuid_shape (uuid_ spec) = true) (Ha : is_action (action spec) = true) :
  forallb not_backslash (filename py_lower spec) = true.
Proof.
  unfold filename; rewrite !forallb_app, (uuid_shape_no_backslash _ Hu).
  pose proof (sanitize_username_class py_lower (username_raw spec)) as Hs.
  unfold matches_safe_name in Hs; apply andb_true_iff in Hs as [_ Hs].
  unfold username_safe; rewrite (in_class_no_backslash _ Hs).
  destruct (is_action_cases _ Ha) as [-> | ->]; reflexivity.
Qed.

Lemma replace_backslash_id (s : pystr) :
  forallb not_backslash s = true -> replace_backslash s = s.
Proof.
  induction s as [|c s IH]; simpl; [reflexivity|]; intros H.
  apply andb_true_iff in H as [Hc H]; unfold not_backslash in Hc.
  apply negb_true_iff in Hc; rewrite Hc, (IH H); reflexivity.
Qed.

Lemma create_audio_ok (py_lower : pystr -> pystr) (gen : AudioSpec -> result pystr)
  (dir uuid user a0 ogg fname : pystr) :
  create_audio py_lower gen dir uuid user a0 = Ok (ogg, fname) ->
  exists spec, uuid_ spec = uuid /\ audio_dir spec = dir /\
    is_action (action spec) = true /\ gen spec = Ok ogg /\
    fname = filename py_lower spec.
Proof.
  unfold create_audio, mk_audio_spec.
  destruct (is_action (py_lower (py_strip a0))) eqn:Ha; simpl; [|discriminate].
  destruct (gen _) as [o|e] eqn:Hg; [|discriminate].
  intros E; injection E as <- <-.
  eexists {| username_raw := user; action := py_lower (py_strip a0);
             audio_dir := dir; uuid_ := uuid |}; split; [reflexivity | split; [reflexivity | split; [exact Ha | split; [exact Hg | reflexivity]]]].
Qed.

Lemma select_service_audio_dir (b : bool) (app : App) (e l t : option pystr)
  (name : pystr) (svc : AudioService) (n : nat) :
  select_service b app e l t = (Ok (name, svc), n) ->
  svc_audio_dir svc = svc_audio_dir (service app).
Proof.
  unfold select_service.
  destruct (pystr_eqb _ (u "gtts")); [destruct b|]; simpl; intros E;
    try discriminate; injection E as _ <- _; reflexivity.
Qed.

Lemma startswith_slash_cons (c : N) (rest : pystr) :
  (47 =? c) = false -> startswith (c :: rest) (u "/") = false.
Proof. intros E; change ((47 =? c) && startswith rest [] = false); rewrite E; reflexivity. Qed.

Lemma relpath_static_audio (static fname : pystr)
  (Hf : startswith fname (u "/") = false) :
  relpath_static (path_join (static ++ u "/audio") fname) static = u "audio/" ++ fname.
Proof.
  assert (Hj : path_join (static ++ u "/audio") fname = (static ++ u "/") ++ u "audio/" ++ fname).
  { unfold path_join; rewrite Hf, rev_app_distr.
    change (rev (u "/audio")) with (111 :: u "idua/"); cbv iota.
    change (111 =? 47) with false; cbv iota.
    rewrite <- !app_assoc; reflexivity. }
  unfold relpath_static; rewrite Hj.
  replace (startswith _ (static ++ u "/")) with true
    by (symmetry; apply startswith_spec; eexists; reflexivity).
  replace (S (length static)) with (length (static ++ u "/"))
    by (rewrite length_app; simpl; lia).
  rewrite skipn_app, skipn_all, Nat.sub_diag; reflexivity.
Qed.

Lemma tts_endpoint_url_aux (py_lower : pystr -> pystr)
  (gtts_available : bool) (generate : Engine -> AudioSpec -> result pystr)
  (uuid : pystr) (app : App) (rq : Request) (url : file_url) (fname eng : pystr)
  (Hgen : forall e spec p, generate e spec = Ok p -> p = ogg_path py_lower spec)
  (Hdir : svc_audio_dir (service app) = static_folder app ++ u "/audio")
  (Hu : uuid_shape uuid = true)
  (Hr : snd (tts_endpoint py_lower gtts_available generate uuid app rq) = JsonOk url fname eng) :
  url = resolve_file_url py_lower (q_base_url rq) (EXTERNAL_BASE_URL (config app))
          (u "audio/" ++ fname).
Proof.
  unfold tts_endpoint in Hr.
  destruct (negb (truthy (opt_str (q_username rq))) || negb (truthy (opt_str (q_action rq))));
    [discriminate|].
  destruct (select_service gtts_available app (q_engine rq) (q_lang rq) (q_tld rq))
    as [[[name svc]|e] n] eqn:Hs; [|discriminate].
  pose proof (select_service_audio_dir _ _ _ _ _ _ _ _ Hs) as Hsd.
  destruct (create_audio py_lower (generate (svc_tts svc)) (svc_audio_dir svc) uuid
              (opt_str (q_username rq)) (opt_str (q_action rq))) as [[ogg f]|[m|m|m]] eqn:Hc;
    try discriminate.
  simpl in Hr; injection Hr as <- <- _.
  destruct (create_audio_ok _ _ _ _ _ _ _ _ Hc) as (spec & Hsu & Hsa & Ha & Hg & ->).
  rewrite (Hgen _ _ _ Hg); unfold ogg_path; rewrite Hsa, Hsd, Hdir.
  assert (Hnb := filename_no_backslash py_lower spec ltac:(rewrite Hsu; exact Hu) Ha).
  assert (Hf : startswith (filename py_lower spec) (u "/") = false).
  { unfold filename; rewrite Hsu.
    destruct uuid as [|c t]; [discriminate|].
    pose proof (uuid_shape_head c t Hu) as Hc0; unfold is_hex_lower in Hc0.
    apply startswith_slash_cons.
    destruct (47 =? c) eqn:E; [|reflexivity].
    apply N.eqb_eq in E; subst c; vm_compute in Hc0; discriminate. }
  rewrite relpath_static_audio by exact Hf.
  rewrite replace_backslash_id
    by (rewrite forallb_app; rewrite Hnb; reflexivity).
  reflexivity.
Qed.

Lemma build_file_url_valid_aux (py_lower : pystr -> pystr) (b f : pystr)
  (Hb : is_valid_base_url py_lower b = true) :
  build_file_url py_lower (u "audio/" ++ f) (Some b) =
  UrlJoin (rstrip_slash b ++ u "/") (u "static/audio/" ++ f).
Proof.
  unfold build_file_url; rewrite (is_valid_base_url_truthy _ _ Hb), Hb; reflexivity.
Qed.

(** The URL [/api/tts] answers for a valid per-request [base_url] points at
    the file it made: with engines that return [spec.ogg_path], a service
    writing into [<static folder>/audio] (as [create_app] sets it up) and a
    uuid of [uuid4]'s shape, the URL is the base (one trailing slash) joined
    with [static/audio/<filename>], the filename being the one the response
    reports.  No backslash conversion or slash stripping alters it. *)
Theorem tts_endpoint_url_request_base (py_lower : pystr -> pystr)
  (gtts_available : bool) (generate : Engine -> AudioSpec -> result pystr)
  (uuid : pystr) (app : App) (rq : Request) (url : file_url) (fname eng : pystr)
  (Hgen : forall e spec p, generate e spec = Ok p -> p = ogg_path py_lower spec)
  (Hdir : svc_audio_dir (service app) = static_folder app ++ u "/audio")
  (Hu : uuid_shape uuid = true)
  (Hb : is_valid_base_url py_lower (py_strip (opt_str (q_base_url rq))) = true)
  (Hr : snd (tts_endpoint py_lower gtts_available generate uuid app rq) = JsonOk url fname eng) :
  url = UrlJoin (rstrip_slash (py_strip (opt_str (q_base_url rq))) ++ u "/")
                (u "static/audio/" ++ fname).
Proof.
  rewrite (tts_endpoint_url_aux _ _ _ _ _ _ _ _ _ Hgen Hdir Hu Hr).
  unfold resolve_file_url; fold (opt_str (q_base_url rq)).
  rewrite (is_valid_base_url_truthy _ _ Hb).
  apply build_file_url_valid_aux, Hb.
Qed.

Lemma generate_ok_returns_ogg (e : Engine) (spec : AudioSpec) (p : pystr) :
  generate_ok e spec = Ok p -> p = ogg_path ascii_lower spec.
Proof. unfold generate_ok; intros H; injection H as <-; reflexivity. Qed.

Lemma tts_endpoint_url_request_base_witness :
  snd (tts_endpoint ascii_lower true generate_ok sample_uuid app0
         (request_of (Some (u "Bob")) (Some (u "leave")) (Some (u " https://h.example/ ")) None))
  = JsonOk (UrlJoin (u "https://h.example/")
              (u "static/audio/" ++ sample_uuid ++ u "_bob_leave.ogg"))
           (sample_uuid ++ u "_bob_leave.ogg") (u "pyttsx3") /\
  UrlJoin (u "https://h.example/") (u "static/audio/" ++ sample_uuid ++ u "_bob_leave.ogg")
  = UrlJoin (rstrip_slash (py_strip (u " https://h.example/ ")) ++ u "/")
            (u "static/audio/" ++ (sample_uuid ++ u "_bob_leave.ogg")).
Proof.
  split; [vm_compute; reflexivity|].
  exact (tts_endpoint_url_request_base ascii_lower true generate_ok sample_uuid app0
           (request_of (Some (u "Bob")) (Some (u "leave")) (Some (u " https://h.example/ ")) None)
           (UrlJoin (u "https://h.example/")
              (u "static/audio/" ++ sample_uuid ++ u "_bob_leave.ogg"))
           (sample_uuid ++ u "_bob_leave.ogg") (u "pyttsx3")
           generate_ok_returns_ogg eq_refl eq_refl eq_refl ltac:(vm_compute; reflexivity)).
Defined.

(* ------------------------------------------------------------------ *)
(** ** The server started from the command line *)

Lemma create_app_fields (g p : bool) (root ext en voice : pystr) (idx : option Z)
  (lang tld : pystr) (app : App) :
  create_app g p root ext en voice idx lang tld = Ok app ->
  svc_audio_dir (service app) = static_folder app ++ u "/audio" /\
  EXTERNAL_BASE_URL (config app) = ext.
Proof.
  unfold create_app.
  destruct (pystr_eqb en (u "gtts")); [destruct g | destruct p]; intros H;
    try discriminate; injection H as <-; simpl; rewrite static_audio_dir; split; reflexivity.
Qed.

(** For a server started with [--external-base-url] set to an http(s) URL
    (surrounding whitespace allowed), a request with no or a blank
    [base_url] gets the URL of its file below the stripped base:
    [parse_args]'s [.strip()] composes with [build_file_url]'s
    [.rstrip('/')], so the base ends in exactly one slash and carries no
    whitespace. *)
Theorem main_app_configured_base_url (py_lower : pystr -> pystr)
  (gtts_available pyttsx3_init_ok : bool) (root : pystr) (a : CliArgs) (app : App)
  (gtts_now : bool) (generate : Engine -> AudioSpec -> result pystr) (uuid : pystr)
  (rq : Request) (url : file_url) (fname eng : pystr)
  (Happ : main_app gtts_available pyttsx3_init_ok root a = Ok app)
  (Hgen : forall e spec p, generate e spec = Ok p -> p = ogg_path py_lower spec)
  (Hu : uuid_shape uuid = true)
  (Hq : forallb py_isspace (opt_str (q_base_url rq)) = true)
  (Hb : is_valid_base_url py_lower (py_strip (external_base_url_arg a)) = true)
  (Hr : snd (tts_endpoint py_lower gtts_now generate uuid app rq) = JsonOk url fname eng) :
  url = UrlJoin (rstrip_slash (py_strip (external_base_url_arg a)) ++ u "/")
                (u "static/audio/" ++ fname).
Proof.
  unfold main_app, parse_args in Happ.
  destruct (pystr_eqb (engine_arg a) (u "pyttsx3") || pystr_eqb (engine_arg a) (u "gtts"));
    [|discriminate].
  destruct (create_app_fields _ _ _ _ _ _ _ _ _ _ Happ) as [Hdir Hext].
  rewrite (tts_endpoint_url_aux _ _ _ _ _ _ _ _ _ Hgen Hdir Hu Hr).
  unfold resolve_file_url; fold (opt_str (q_base_url rq)).
  rewrite (py_strip_all_space _ Hq), Hext; cbv iota beta.
  change (truthy []) with false; cbv iota.
  rewrite (is_valid_base_url_truthy _ _ Hb).
  apply build_file_url_valid_aux, Hb.
Qed.

Lemma main_app_configured_base_url_witness :
  let app := match main_app true true (u "/srv/app") cli_example with
             | Ok x => x | Raise _ => app0 end in
  let rq := request_of (Some (u "Alice")) (Some (u "join")) None None in
  match snd (tts_endpoint ascii_lower true generate_ok sample_uuid app rq) with
  | JsonOk url fname _ =>
      url = UrlJoin (rstrip_slash (py_strip (external_base_url_arg cli_example)) ++ u "/")
                    (u "static/audio/" ++ fname)
  | HttpError _ _ => False
  end.
Proof.
  intros app rq.
  destruct (snd (tts_endpoint ascii_lower true generate_ok sample_uuid app rq))
    as [st d | url fname eng] eqn:Hr.
  - vm_compute in Hr; discriminate.
  - exact (main_app_configured_base_url ascii_lower true true (u "/srv/app") cli_example app
             true generate_ok sample_uuid rq url fname eng
             ltac:(vm_compute; reflexivity) generate_ok_returns_ogg eq_refl eq_refl eq_refl Hr).
Defined.

(* ------------------------------------------------------------------ *)
(** ** An invalid action never reaches the engine *)

Lemma create_audio_invalid (py_lower : pystr -> pystr) (gen : AudioSpec -> result pystr)
  (dir uuid user a0 : pystr) :
  is_action (py_lower (py_strip a0)) = false ->
  create_audio py_lower gen dir uuid user a0 =
    Raise (ValueError (u "Parameter 'action' must be 'join' or 'leave'.")).
Proof. unfold create_audio; cbv zeta; intros ->; reflexivity. Qed.

(** A request whose trimmed, lowercased action is neither ["join"] nor
    ["leave"] is answered, and leaves the application, the same whatever
    the engines' [generate_ogg] would do: [create_audio] raises before
    building an [AudioSpec], so no synthesis runs and no file is made. *)
Theorem tts_endpoint_invalid_action_no_generation (py_lower : pystr -> pystr)
  (gtts_available : bool) (gen1 gen2 : Engine -> AudioSpec -> result pystr)
  (uuid1 uuid2 : pystr) (app : App) (rq : Request)
  (Ha : is_action (py_lower (py_strip (opt_str (q_action rq)))) = false) :
  tts_endpoint py_lower gtts_available gen1 uuid1 app rq =
  tts_endpoint py_lower gtts_available gen2 uuid2 app rq.
Proof.
  unfold tts_endpoint.
  destruct (negb (truthy (opt_str (q_username rq))) || negb (truthy (opt_str (q_action rq))));
    [reflexivity|].
  destruct (select_service gtts_available app (q_engine rq) (q_lang rq) (q_tld rq))
    as [[[name svc]|e] n]; [|reflexivity].
  rewrite !create_audio_invalid by exact Ha; reflexivity.
Qed.

Lemma tts_endpoint_invalid_action_no_generation_witness :
  tts_endpoint ascii_lower true generate_ok sample_uuid app0
    (request_of (Some (u "Alice")) (Some (u " Jump ")) None None) =
  tts_endpoint ascii_lower true (fun _ _ => Raise (OtherError (u "boom"))) [] app0
    (request_of (Some (u "Alice")) (Some (u " Jump ")) None None).
Proof.
  exact (tts_endpoint_invalid_action_no_generation ascii_lower true generate_ok
           (fun _ _ => Raise (OtherError (u "boom"))) sample_uuid [] app0
           (request_of (Some (u "Alice")) (Some (u " Jump ")) None None) eq_refl).
Defined.

(* ------------------------------------------------------------------ *)
(** ** [list_and_test_all_voices] *)

Lemma gather_metadata_cases (py_lower : pystr -> pystr) (vs : list (option pystr * Voice))
  (i : nat) :
  (forallb voice_describable vs = true ->
     exists ms, gather_metadata py_lower i vs = Ok ms /\ length ms = length vs) /\
  (forallb voice_describable vs = false ->
     exists e, gather_metadata py_lower i vs = Raise e).
Proof.
  revert i; induction vs as [|[g v] vs IH]; intros i; simpl.
  - split; [intros _; exists []; split; reflexivity | discriminate].
  - change (voice_describable (g, v)) with (truthy (opt_str g) || is_some (v_name v)).
    destruct (IH (S i)) as [IHok IHko].
    unfold get_voice_gender.
    destruct (truthy (opt_str g)) eqn:Hg; simpl.
    + split.
      * intros H; destruct (IHok H) as [ms [-> Hl]]; eexists; split; [reflexivity|simpl; lia].
      * intros H; destruct (IHko H) as [e ->]; eexists; reflexivity.
    + destruct (v_name v) as [nm|]; simpl.
      * split.
        -- intros H; destruct (IHok H) as [ms [Hm Hl]].
           destruct (_ || _); [|destruct (_ || _)]; rewrite Hm;
             (eexists; split; [reflexivity | simpl; lia]).
        -- intros H; destruct (IHko H) as [e He].
           destruct (_ || _); [|destruct (_ || _)]; rewrite He; eexists; reflexivity.
      * split; [discriminate | intros _; eexists; reflexivity].
Qed.

(** Listing the voices ([play=False]) completes, printing one line per
    voice between the header and the closing line, exactly when every voice
    has truthy gender metadata or a [name]; otherwise one nameless voice
    without gender metadata aborts it after the header, before any voice is
    shown. *)
Theorem list_and_test_all_voices_outcome (py_lower : pystr -> pystr)
  (vs : list (option pystr * Voice)) :
  (forallb voice_describable vs = true ->
     snd (list_and_test_all_voices py_lower vs) = Ok tt /\
     length (fst (list_and_test_all_voices py_lower vs)) = (length vs + 2)%nat) /\
  (forallb voice_describable vs = false ->
     fst (list_and_test_all_voices py_lower vs) = [FoundVoices (length vs)] /\
     exists e, snd (list_and_test_all_voices py_lower vs) = Raise e).
Proof.
  destruct (gather_metadata_cases py_lower vs 0) as [Hok Hko].
  unfold list_and_test_all_voices; split.
  - intros H; destruct (Hok H) as [ms [-> Hl]]; simpl.
    rewrite length_app, length_map; simpl; split; [reflexivity | lia].
  - intros H; destruct (Hko H) as [e ->]; simpl; split; [reflexivity | eexists; reflexivity].
Qed.

(* ------------------------------------------------------------------ *)
(** ** More on [generate_ogg] *)

(** The cleanup sits in the [finally] of the transcode only: a synthesis
    that raises after writing the intermediate file propagates its
    exception and leaves that file behind, and no ogg file is made. *)
Theorem generate_ogg_synth_failure_leaves_tmp (py_lower : pystr -> pystr)
  (k : engine_kind) (e : exc) (transcode remove : step_outcome)
  (spec : AudioSpec) (fs : list pystr) (Hu : uuid_shape (uuid_ spec) = true) :
  let '(fs', r, printed) :=
    generate_ogg py_lower k (SynthRaisesAfterWrite e) transcode remove spec fs in
  r = Raise e /\ fs_exists (tmp_source_path k spec) fs' = true /\
  fs_exists (ogg_path py_lower spec) fs' = fs_exists (ogg_path py_lower spec) fs.
Proof.
  destruct (audio_spec_paths_distinct_aux py_lower spec Hu) as (H1 & H2 & _).
  assert (Hne : tmp_source_path k spec <> ogg_path py_lower spec)
    by (destruct k; assumption).
  unfold generate_ogg; cbv beta iota zeta.
  rewrite !fs_exists_add, pystr_eqb_refl_aux.
  rewrite (pystr_eqb_neq _ _ (not_eq_sym Hne)); repeat split.
Qed.

Lemma generate_ogg_synth_failure_leaves_tmp_witness :
  fs_exists (tmp_wav_path spec0)
    (fst (fst (generate_ogg ascii_lower (PyTTSX3Generator [] None)
                 (SynthRaisesAfterWrite (OtherError (u "driver error")))
                 StepOk StepOk spec0 []))) = true.
Proof.
  pose proof (generate_ogg_synth_failure_leaves_tmp ascii_lower (PyTTSX3Generator [] None)
                (OtherError (u "driver error")) StepOk StepOk spec0 [] eq_refl) as H.
  destruct (generate_ogg _ _ _ _ _ _ _) as [[fs r] printed]; simpl.
  destruct H as (_ & H & _); exact H.
Defined.

(** Whatever synthesis, transcoding and removal do, a path [generate_ogg]
    returns is the spec's ogg path, and that file exists afterwards. *)
Theorem generate_ogg_returned_path_exists (py_lower : pystr -> pystr)
  (k : engine_kind) (synth : synth_outcome) (transcode remove : step_outcome)
  (spec : AudioSpec) (fs : list pystr) (p : pystr)
  (Hu : uuid_shape (uuid_ spec) = true)
  (Hr : snd (fst (generate_ogg py_lower k synth transcode remove spec fs)) = Ok p) :
  p = ogg_path py_lower spec /\
  fs_exists p (fst (fst (generate_ogg py_lower k synth transcode remove spec fs))) = true.
Proof.
  destruct (audio_spec_paths_distinct_aux py_lower spec Hu) as (H1 & H2 & _).
  assert (Hne : tmp_source_path k spec <> ogg_path py_lower spec)
    by (destruct k; assumption).
  revert Hr; unfold generate_ogg; destruct synth as [| e | e]; cbv beta iota zeta;
    cbn [fst snd]; [|discriminate|discriminate].
  destruct transcode as [|e]; cbv beta iota zeta; cbn [fst snd]; [|discriminate].
  intros Hr; injection Hr as <-; split; [reflexivity|].
  match goal with
  | |- fs_exists _ (if fs_exists ?t ?X then _ else _) = true =>
      destruct (fs_exists t X); [destruct remove|]
  end;
    try (rewrite fs_exists_remove_other by exact (not_eq_sym Hne));
    rewrite fs_exists_add, pystr_eqb_refl_aux; reflexivity.
Qed.

Lemma generate_ogg_returned_path_exists_witness :
  fs_exists (ogg_path ascii_lower spec0)
    (fst (fst (generate_ogg ascii_lower (GTTSGenerator (u "en") (u "com")) SynthOk
                 StepOk (StepRaises (OtherError (u "busy"))) spec0 []))) = true.
Proof.
  destruct (generate_ogg_returned_path_exists ascii_lower (GTTSGenerator (u "en") (u "com"))
              SynthOk StepOk (StepRaises (OtherError (u "busy"))) spec0 []
              (ogg_path ascii_lower spec0) eq_refl eq_refl) as [_ H].
  exact H.
Defined.

(* ------------------------------------------------------------------ *)
(** ** The ["user"] fallback and the [AudioSpec] check *)

Lemma sub_disallowed_dashes (p : bool) (s : pystr) :
  forallb (fun c => negb (in_class c) || (c =? dash)) s = true ->
  forallb (N.eqb dash) (sub_disallowed p s) = true.
Proof.
  revert p; induction s as [|c t IH]; intros p H; simpl.
  - destruct p; reflexivity.
  - apply andb_true_iff in H as [Hc H].
    destruct (in_class c) eqn:Ec; [|apply IH, H].
    simpl in Hc; apply N.eqb_eq in Hc; subst c.
    rewrite forallb_app; simpl; rewrite (IH false H).
    destruct p; reflexivity.
Qed.

Lemma sub_dash_runs_dashes (n : nat) (s : pystr) :
  forallb (N.eqb dash) s = true -> forallb (N.eqb dash) (sub_dash_runs n s) = true.
Proof.
  revert n; induction s as [|c t IH]; intros n H; simpl.
  - unfold emit_dashes; destruct (2 <=? n)%nat; [reflexivity|].
    induction n; [reflexivity|]; simpl; exact IHn.
  - apply andb_true_iff in H as [Hc H].
    rewrite N.eqb_sym, Hc; apply IH, H.
Qed.

(** A username in which, after stripping and lowercasing, nothing but
    hyphens and code points outside [[a-z0-9_-]] is left becomes ["user"]. *)
Theorem sanitize_username_fallback_user (py_lower : pystr -> pystr) (s : pystr)
  (H : forallb (fun c => negb (in_class c) || (c =? dash)) (py_lower (py_strip s)) = true) :
  sanitize_username py_lower s = u "user".
Proof.
  unfold sanitize_username, sanitize_username_len; cbv zeta.
  pose proof (sub_dash_runs_dashes 0 _ (sub_disallowed_dashes false _ H)) as Hd.
  unfold strip_by.
  rewrite <- (app_nil_r (sub_dash_runs 0 _)), (lstrip_by_all _ _ _ Hd); reflexivity.
Qed.

Lemma sanitize_username_fallback_user_witness :
  sanitize_username ascii_lower (u " --!?-- ") = u "user".
Proof. exact (sanitize_username_fallback_user ascii_lower (u " --!?-- ") eq_refl). Defined.

(** [create_audio] checks the action before building the [AudioSpec], so
    the constructor's own check never fires: the only [ValueError]s it
    raises are its own message and those of the engine. *)
Theorem create_audio_spec_check_unreachable (py_lower : pystr -> pystr)
  (gen : AudioSpec -> result pystr) (dir uuid user a0 m : pystr)
  (Hgen : forall spec, gen spec <> Raise (ValueError m))
  (Hr : create_audio py_lower gen dir uuid user a0 = Raise (ValueError m)) :
  m = u "Parameter 'action' must be 'join' or 'leave'.".
Proof.
  revert Hr; unfold create_audio, mk_audio_spec; cbv zeta.
  destruct (is_action (py_lower (py_strip a0))); simpl.
  - destruct (gen _) as [o|e] eqn:Hg; [discriminate|].
    intros E; injection E as ->; exfalso; exact (Hgen _ Hg).
  - intros E; injection E as <-; reflexivity.
Qed.

Lemma create_audio_spec_check_unreachable_witness :
  exists m, create_audio ascii_lower (fun _ => Ok []) [] sample_uuid (u "x") (u " HOP ")
              = Raise (ValueError m) /\
            m = u "Parameter 'action' must be 'join' or 'leave'.".
Proof.
  exists (u "Parameter 'action' must be 'join' or 'leave'."); split; [reflexivity|].
  apply (create_audio_spec_check_unreachable ascii_lower (fun _ => Ok []) [] sample_uuid
           (u "x") (u " HOP ")); [intros spec; discriminate | reflexivity].
Defined.
